(** * The input package: polling, edge detection, history ring, query callback

    A shallow embedding of the Go package [input] (Poll, State, the history
    ring behind Serialize / Unserialize / getState / setState) together with
    the properties its specification states about it. *)

From Stdlib Require Import ZArith NArith Lia.
From Stdlib Require Import Floats.SpecFloat.
From stdpp Require Import base list gmap strings.

Local Open Scope Z_scope.

(** ** Go's machine types *)

Module Go.

(** [int] is a 64-bit two's complement integer: arithmetic wraps. *)
Definition int_min : Z := - 2 ^ 63.
Definition int_max : Z := 2 ^ 63 - 1.
Definition in_int (z : Z) : Prop := int_min <= z <= int_max.

Definition wrap (z : Z) : Z := (z + 2 ^ 63) mod 2 ^ 64 - 2 ^ 63.
Definition add (a b : Z) : Z := wrap (a + b).

(** [%] truncates toward zero: the sign of the result is the dividend's. *)
Definition rem (a b : Z) : Z := Z.rem a b.

(** [float32] is IEEE 754 binary32: 24 bits of precision, emax 128. *)
Definition float32 : Type := spec_float.
Definition fmul (x y : float32) : float32 := SFmul 24 128 x y.
Definition flt (x y : float32) : bool := SFltb x y.
Definition fgt (x y : float32) : bool := SFltb y x.

(** Indexing a slice or array with an [int]: out of range is a panic,
    here [None]. *)
Definition at_int {A : Type} (l : list A) (i : Z) : option A :=
  if i <? 0 then None else l !! Z.to_nat i.

(** Indexing with an unsigned integer. *)
Definition at_uint {A : Type} (l : list A) (i : N) : option A :=
  l !! N.to_nat i.

End Go.

Import Go.

(** The float32 constants the source and the specification's scenarios use,
    in canonical form (mantissa in [2^23, 2^24)). *)
Definition f32_half     : float32 := S754_finite false 8388608 (-24).
Definition f32_neg_half : float32 := S754_finite true  8388608 (-24).
Definition f32_neg_one  : float32 := S754_finite true  8388608 (-23).
Definition f32_0_7      : float32 := S754_finite false 11744051 (-24).
Definition f32_neg_0_7  : float32 := S754_finite true  11744051 (-24).
Definition f32_neg_0_3  : float32 := S754_finite true  10066330 (-25).

(** ** Constants of the libretro package

    The package [libretro] is imported by the source but is not part of it:
    its constants are taken as parameters. *)
Class Libretro : Type := {
  DeviceJoypad : N;
  DeviceIDJoypadUp : N;
  DeviceIDJoypadDown : N;
  DeviceIDJoypadLeft : N;
  DeviceIDJoypadRight : N;
  DeviceIDJoypadR3 : N;
}.

(** glfw.Press *)
Definition Press : Z := 1.

(** MaxPlayers is the maximum number of players to poll input for *)
Definition MaxPlayers : nat := 5.
Definition maxFrames : Z := 60.
Definition localPlayerPort : nat := 0.

Definition btn : N := 0%N.
Definition axis : N := 1%N.

Record bind : Type := Bind {
  kind : N;
  index_ : N;
  direction : float32;
  threshold : float32;
}.

(** [joybinds] is a Go map from [bind] to an action id; it is only ever
    ranged over, so it is kept as the list of its entries in the order the
    runtime iterates them. *)
Abbreviation joybinds := (list (bind * N)).

(** [playerState] is [[ActionLast]bool] and [inputState] is
    [[MaxPlayers]playerState]: arrays, with value semantics. *)
Abbreviation playerState := (list bool).
Abbreviation inputState := (list (list bool)).

Section Constants.
Context {L : Libretro}.

(** Hot keys *)
Definition ActionMenuToggle : N := (DeviceIDJoypadR3 + 1)%N.
Definition ActionFullscreenToggle : N := (DeviceIDJoypadR3 + 2)%N.
Definition ActionShouldClose : N := (DeviceIDJoypadR3 + 3)%N.
Definition ActionFastForwardToggle : N := (DeviceIDJoypadR3 + 4)%N.
(** ActionLast is used for iterating *)
Definition ActionLast : N := (DeviceIDJoypadR3 + 5)%N.

(** The zero values [playerState{}] and [inputState{}]. *)
Definition zero_playerState : playerState :=
  replicate (N.to_nat ActionLast) false.
Definition zero_inputState : inputState :=
  replicate MaxPlayers zero_playerState.

(** What the array types guarantee about the shape of a value. *)
Definition wf_playerState (st : playerState) : Prop :=
  length st = N.to_nat ActionLast.
Definition wf_inputState (s : inputState) : Prop :=
  length s = MaxPlayers /\ Forall wf_playerState s.
End Constants.

(** Reading one bit of an input state whose indices are known to be in
    range. *)
Definition bit (s : inputState) (p a : nat) : bool := (s !!! p) !!! a.

(** ** The heap, dynamic values and the engine state

    [buffers] is a slice: a reference to a backing array that the assignments
    of [setState] and [initializeBuffer] address in place. The backing arrays
    live in a heap indexed by address; allocation appends. *)
Abbreviation addr := nat.

(** The values an [interface{}] holds here. *)
Inductive any : Type :=
  | AnyNil                                   (* the nil interface *)
  | AnySlice (a : addr)                      (* a []inputState *)
  | AnyPlayerState (st : playerState)        (* a playerState *)
  | AnyArray (st : list bool)                (* an unnamed [n]bool *)
  | AnyRings (depth : nat) (rings : list (list playerState))
                                             (* a [][depth]playerState *)
  | AnyFunc.                                 (* a func value *)

(** video.Video, as far as this package looks at it: the window handle. *)
Definition Video : Type := Z.

Record Engine : Type := mkEngine {
  polled : inputState;
  buffers : addr;
  heap : list (list inputState);
  NewState : inputState;   (* input state for the current frame *)
  OldState : inputState;   (* input state for the previous frame *)
  Released : inputState;   (* keys just released during this frame *)
  Pressed : inputState;    (* keys just pressed during this frame *)
  vid : option Video;
}.

Definition with_polled (v : inputState) (e : Engine) : Engine :=
  mkEngine v (buffers e) (heap e) (NewState e) (OldState e) (Released e)
           (Pressed e) (vid e).
Definition with_buffers (b : addr) (e : Engine) : Engine :=
  mkEngine (polled e) b (heap e) (NewState e) (OldState e) (Released e)
           (Pressed e) (vid e).
Definition with_heap (hp : list (list inputState)) (e : Engine) : Engine :=
  mkEngine (polled e) (buffers e) hp (NewState e) (OldState e) (Released e)
           (Pressed e) (vid e).
Definition with_NewState (v : inputState) (e : Engine) : Engine :=
  mkEngine (polled e) (buffers e) (heap e) v (OldState e) (Released e)
           (Pressed e) (vid e).
Definition with_OldState (v : inputState) (e : Engine) : Engine :=
  mkEngine (polled e) (buffers e) (heap e) (NewState e) v (Released e)
           (Pressed e) (vid e).
Definition with_edges (pr rl : inputState) (e : Engine) : Engine :=
  mkEngine (polled e) (buffers e) (heap e) (NewState e) (OldState e) rl pr
           (vid e).
Definition with_vid (v : option Video) (e : Engine) : Engine :=
  mkEngine (polled e) (buffers e) (heap e) (NewState e) (OldState e)
           (Released e) (Pressed e) v.

(** The backing array [buffers] refers to. *)
Definition live (e : Engine) : option (list inputState) := heap e !! buffers e.

(** A slice reference is valid when it points into the heap. *)
Definition valid (e : Engine) : Prop := (buffers e < length (heap e))%nat.

(** What the package reads from its collaborators: the emulation clock, the
    settings, the binding tables and GLFW. *)
Record Host : Type := mkHost {
  Tick : Z;                              (* state.Global.Tick *)
  MapAxisToDPad : bool;                  (* settings.Current.MapAxisToDPad *)
  keyBinds : list (Z * N);               (* map[glfw.Key]uint32, as ranged *)
  joyBinds : gmap string joybinds;       (* map[string]joybinds *)
  GetKey : Video -> Z -> Z;              (* vid.Window.GetKey *)
  GetButtons : nat -> list Z;            (* glfw.Joystick.GetButtons *)
  GetAxes : nat -> list float32;         (* glfw.Joystick.GetAxes *)
  GetName : nat -> string;               (* glfw.Joystick.GetName *)
}.

(** ** Computations on the engine: return a value or panic

    A panic keeps the engine as it was when the panic was raised. *)
Inductive outcome (A : Type) : Type :=
  | Ret (a : A) (e : Engine)
  | Panic (e : Engine).
Arguments Ret {A} a e.
Arguments Panic {A} e.

Definition M (A : Type) : Type := Engine -> outcome A.

Definition ret {A} (a : A) : M A := fun e => Ret a e.
Definition panic {A} : M A := fun e => Panic e.
Definition bind_ {A B} (c : M A) (k : A -> M B) : M B :=
  fun e => match c e with
           | Ret a e' => k a e'
           | Panic e' => Panic e'
           end.
Definition get : M Engine := fun e => Ret e e.
Definition modify (f : Engine -> Engine) : M unit := fun e => Ret tt (f e).
Definition lift_opt {A} (o : option A) : M A :=
  match o with Some a => ret a | None => panic end.

Notation "x <~ c ;; k" := (bind_ c (fun x => k))
  (at level 100, c at next level, right associativity).
Notation "c ;;; k" := (bind_ c (fun _ => k))
  (at level 100, right associativity).

Fixpoint for_each {A} (l : list A) (body : A -> M unit) : M unit :=
  match l with
  | [] => ret tt
  | x :: l' => body x ;;; for_each l' body
  end.

Definition result {A} (o : outcome A) : option A :=
  match o with Ret a _ => Some a | Panic _ => None end.
Definition state_of {A} (o : outcome A) : Engine :=
  match o with Ret _ e => e | Panic e => e end.
Definition panics {A} (o : outcome A) : bool :=
  match o with Ret _ _ => false | Panic _ => true end.

(** [c] keeps [P], whether it returns or panics. *)
Definition preserves {A} (P : Engine -> Prop) (c : M A) : Prop :=
  forall e, P e -> P (state_of (c e)).

(** [f] applied to the engine an outcome carries. *)
Definition map_state {A} (f : Engine -> Engine) (o : outcome A) : outcome A :=
  match o with Ret a e => Ret a (f e) | Panic e => Panic (f e) end.

(** [c] does not look at what [f] changes: running it after [f] is running
    it and then applying [f]. *)
Definition commutes {A} (f : Engine -> Engine) (c : M A) : Prop :=
  forall e, c (f e) = map_state f (c e).

(** ** deepcopy.Anything

    The deep-copy library is external. It copies booleans, arrays and slices,
    hands the nil interface back as it is, and reports an error for kinds it
    does not support, such as funcs. [None] is the non-nil [err]. A slice is
    copied into a freshly allocated backing array of the slice's own type. An
    array is rebuilt with reflect.ArrayOf, so the copy of a [playerState] has
    the unnamed array type and is a [playerState] no more. A reference
    outside the heap does not arise in Go; the model treats it as not
    copyable. *)
Definition deepcopy_Anything (x : any) : M (option any) :=
  match x with
  | AnyNil => ret (Some AnyNil)
  | AnySlice a =>
      fun e => match heap e !! a with
               | Some arr =>
                   Ret (Some (AnySlice (length (heap e))))
                       (with_heap (heap e ++ [arr]) e)
               | None => Ret None e
               end
  | AnyPlayerState st => ret (Some (AnyArray st))
  | AnyArray st => ret (Some (AnyArray st))
  | AnyRings d rs => ret (Some (AnyRings d rs))
  | AnyFunc => ret None
  end.

(** The type assertions [copy.([]inputState)] and [copy.(playerState)]: a
    value of another dynamic type, or the nil interface, panics. *)
Definition assert_buffers (x : any) : M addr :=
  match x with AnySlice a => ret a | _ => panic end.
Definition assert_playerState (x : any) : M playerState :=
  match x with AnyPlayerState st => ret st | _ => panic end.

Definition is_buffers (x : any) : bool :=
  match x with AnySlice _ => true | _ => false end.

(** ** The history ring *)

(** [(maxFrames + tick) % maxFrames], the expression [index] and [getState]
    share. *)
Definition frame (tick : Z) : Z := rem (add maxFrames tick) maxFrames.

Definition index (h : Host) (offset : Z) : Z :=
  let tick := Tick h in
  let tick := add tick offset in
  frame tick.

Definition Serialize : M any :=
  e <~ get ;;
  r <~ deepcopy_Anything (AnySlice (buffers e)) ;;
  match r with
  | None => panic
  | Some copy => ret copy
  end.

Definition Unserialize (st : any) : M unit :=
  r <~ deepcopy_Anything st ;;
  match r with
  | None => panic
  | Some copy =>
      b <~ assert_buffers copy ;;
      modify (with_buffers b)
  end.

Definition getState (port : N) (tick : Z) : M playerState :=
  let frame := frame tick in
  e <~ get ;;
  arr <~ lift_opt (live e) ;;
  ring <~ lift_opt (at_uint arr port) ;;
  st <~ lift_opt (at_int ring frame) ;;
  ret st.

Definition getLatest (port : N) : M playerState :=
  e <~ get ;;
  lift_opt (at_uint (polled e) port).

Definition currentState (h : Host) (port : N) : M playerState :=
  getState port (Tick h).

(** [buffers[port][i] = v]: both indices are checked, then the backing array
    is updated in place. *)
Definition store (port : N) (i : Z) (v : playerState) : M unit :=
  e <~ get ;;
  arr <~ lift_opt (live e) ;;
  ring <~ lift_opt (at_uint arr port) ;;
  _ <~ lift_opt (at_int ring i) ;;
  modify (with_heap
            (<[buffers e := <[N.to_nat port := <[Z.to_nat i := v]> ring]> arr]>
               (heap e))).

Definition setState (h : Host) (port : N) (st : playerState) : M unit :=
  r <~ deepcopy_Anything (AnyPlayerState st) ;;
  match r with
  | None => panic
  | Some copy =>
      i <~ ret (index h 0) ;;
      v <~ assert_playerState copy ;;
      store port i v
  end.

Section Engine.
Context {L : Libretro}.

Definition initializeBuffer (port : N) : M unit :=
  for_each (seq 0 (Z.to_nat maxFrames))
           (fun i => store port (Z.of_nat i) zero_playerState).

(** The package-level variables as the program starts. *)
Definition init_engine : Engine :=
  mkEngine zero_inputState 0%nat [[]] zero_inputState zero_inputState
           zero_inputState zero_inputState None.

(** Init initializes the input package *)
Definition Init (v : Video) : M unit := modify (with_vid (Some v)).

(** ** Polling *)

(** [polled[p][v] = true] *)
Definition setPolled (p : nat) (v : N) : M unit :=
  e <~ get ;;
  row <~ lift_opt (polled e !! p) ;;
  _ <~ lift_opt (at_uint row v) ;;
  modify (with_polled (<[p := <[N.to_nat v := true]> row]> (polled e))).

Definition btn_fires (k : bind) (buttonState : list Z) : bool :=
  match at_uint buttonState (index_ k) with
  | Some a => a =? Press
  | None => false
  end.

Definition axis_fires (k : bind) (axisState : list float32) : bool :=
  match at_uint axisState (index_ k) with
  | Some a => fgt (fmul (direction k) a) (fmul (threshold k) (direction k))
  | None => false
  end.

(** The body of the loop over a device's bindings. *)
Definition pollBind (h : Host) (p : nat) (buttonState : list Z)
    (axisState : list float32) (kv : bind * N) : M unit :=
  let (k, v) := kv in
  (if (kind k =? btn)%N then
     if btn_fires k buttonState then setPolled p v else ret tt
   else if (kind k =? axis)%N then
     if axis_fires k axisState then setPolled p v else ret tt
   else ret tt) ;;;
  if negb (MapAxisToDPad h) then ret tt
  else
    a0 <~ lift_opt (axisState !! 0%nat) ;;
    (if flt a0 f32_neg_half then setPolled p DeviceIDJoypadLeft
     else if fgt a0 f32_half then setPolled p DeviceIDJoypadRight
     else ret tt) ;;;
    a1 <~ lift_opt (axisState !! 1%nat) ;;
    if fgt a1 f32_half then setPolled p DeviceIDJoypadDown
    else if flt a1 f32_neg_half then setPolled p DeviceIDJoypadUp
    else ret tt.

(** The body of the loop over the players. *)
Definition pollJoypad (h : Host) (p : nat) : M unit :=
  let buttonState := GetButtons h p in
  let axisState := GetAxes h p in
  let name := GetName h p in
  let jb := default [] (joyBinds h !! name) in
  if (0 <? length buttonState)%nat then
    for_each jb (pollBind h p buttonState axisState)
  else ret tt.

(** pollJoypads process joypads of all players *)
Definition pollJoypads (h : Host) : M unit :=
  for_each (seq 0 MaxPlayers) (pollJoypad h).

(** pollKeyboard processes keyboard keys *)
Definition pollKeyboard (h : Host) : M unit :=
  for_each (keyBinds h)
    (fun kv =>
       e <~ get ;;
       w <~ lift_opt (vid e) ;;
       if GetKey h w (fst kv) =? Press
       then setPolled localPlayerPort (snd kv)
       else ret tt).

(** Compute the keys pressed or released during this frame *)
Definition edges (f : bool -> bool -> bool) (new old : inputState)
    : inputState :=
  imap (fun p row => imap (fun k b => f b (bit old p k)) row) new.

Definition getPressedReleased (new old : inputState)
    : M (inputState * inputState) :=
  modify (with_edges (edges (fun n o => n && negb o) new old)
                     (edges (fun n o => negb n && o) new old)) ;;;
  e <~ get ;;
  ret (Pressed e, Released e).

(** Poll calculates the input state. It is meant to be called for each
    frame. *)
Definition Poll (h : Host) : M unit :=
  modify (with_polled zero_inputState) ;;;
  pollKeyboard h ;;;
  pollJoypads h ;;;
  modify (fun e => with_NewState (polled e) e) ;;;
  e <~ get ;;
  pr <~ getPressedReleased (NewState e) (OldState e) ;;
  modify (with_edges (fst pr) (snd pr)) ;;;
  (* Store the old input state for comparisions *)
  modify (fun e => with_OldState (NewState e) e).

(** State is a callback passed to core.SetInputState.
    It returns 1 if the button corresponding to the parameters is pressed *)
Definition State (port : N) (device : N) (index : N) (id : N) : M Z :=
  if ((255 <=? id) || (0 <? index) || (N.of_nat MaxPlayers <=? port)
      || negb (N.land device DeviceJoypad =? 1)
      || (DeviceIDJoypadR3 <? id))%N
  then ret 0
  else
    st <~ getLatest port ;;
    b <~ lift_opt (at_uint st id) ;;
    if b then ret 1 else ret 0.

(** The invariant of polling: the live snapshot keeps its shape and the
    window stays the one Init installed. *)
Definition polling (w : option Video) (e : Engine) : Prop :=
  wf_inputState (polled e) /\ vid e = w.

End Engine.

(** HasBinding returns true if the joystick has an autoconfig binding *)
Definition HasBinding (h : Host) (joy : nat) : bool :=
  let name := GetName h joy in
  match joyBinds h !! name with
  | Some _ => true
  | None => false
  end.

(** ** Concrete values for the scenarios

    The joypad constants as libretro.h numbers them. *)
Definition libretro_h : Libretro :=
  {| DeviceJoypad := 1; DeviceIDJoypadUp := 4; DeviceIDJoypadDown := 5;
     DeviceIDJoypadLeft := 6; DeviceIDJoypadRight := 7;
     DeviceIDJoypadR3 := 15 |}.

(** An input state with exactly the bit of player [p], action [a] set. *)
Definition one_bit (p a : nat) : inputState :=
  let z := zero_inputState (L := libretro_h) in
  <[p := <[a := true]> (z !!! p)]> z.

(** An engine whose history buffer holds [rings] and whose live snapshot is
    [snap]; [spare] are further backing arrays on the heap. *)
Definition engine_with (snap : inputState) (rings : list inputState)
    (spare : list (list inputState)) : Engine :=
  let z := zero_inputState (L := libretro_h) in
  mkEngine snap 0%nat (rings :: spare) z z z z (Some 7).

(** One joypad, "pad", plugged for player 0: one button, not pressed, and one
    axis at [a]; its only binding maps axis 0, direction -1, threshold 0.5 to
    Left. *)
Definition pad_host (a : float32) : Host :=
  mkHost 0 false []
         {[ "pad"%string := [(Bind axis 0 f32_neg_one f32_half, 6%N)] ]}
         (fun _ _ => 0)
         (fun p => match p with O => [0] | _ => [] end)
         (fun p => match p with O => [a] | _ => [] end)
         (fun _ => "pad"%string).

(** The same joypad with the axis-to-dpad setting on. *)
Definition dpad_host (a : float32) : Host :=
  mkHost 0 true []
         {[ "pad"%string := [(Bind axis 0 f32_neg_one f32_half, 6%N)] ]}
         (fun _ _ => 0)
         (fun p => match p with O => [0] | _ => [] end)
         (fun p => match p with O => [a] | _ => [] end)
         (fun _ => "pad"%string).

(** A keyboard whose key 264 is bound to Down and held, at tick [t]. *)
Definition key_host (t : Z) : Host :=
  mkHost t false [(264, 5%N)] ∅ (fun _ _ => Press) (fun _ => []) (fun _ => [])
         (fun _ => EmptyString).

(** A keyboard whose key 264 is bound to action id 20, one past the last
    action of libretro.h's numbering, and held. *)
Definition stray_key_host : Host :=
  mkHost 0 false [(264, 20%N)] ∅ (fun _ _ => Press) (fun _ => [])
         (fun _ => []) (fun _ => EmptyString).

(** * Properties *)

(** ** Go integers *)

Lemma wrap_in_range (z : Z) : in_int z -> wrap z = z.
Proof.
  unfold in_int, int_min, int_max, wrap.
  change (2 ^ 63) with 9223372036854775808.
  change (2 ^ 64) with 18446744073709551616.
  intros Hz. rewrite Z.mod_small by lia. lia.
Qed.

Lemma frame_small (t : Z) :
  - maxFrames <= t -> t + maxFrames <= int_max ->
  frame t = (maxFrames + t) mod maxFrames.
Proof.
  unfold frame, add, rem, maxFrames, int_max. intros Hlo Hhi.
  change (2 ^ 63) with 9223372036854775808 in Hhi.
  rewrite wrap_in_range.
  - apply Z.rem_mod_nonneg; lia.
  - unfold in_int, int_min, int_max.
    change (2 ^ 63) with 9223372036854775808. lia.
Qed.

(** ** The ring slot *)

(** C6 (as stated, refuted): at tick -61 the slot is negative, and it differs
    from the slot one ring depth later. *)
Lemma frame_below_depth_counterexample :
  ~ (frame (-61) = frame (-61 + maxFrames) /\ 0 <= frame (-61) < maxFrames).
Proof.
  vm_compute. intros [Heq _]. discriminate Heq.
Qed.

(** C6 (amended): for every tick no lower than minus the depth, and for which
    adding the depth twice stays within the range of [int], the slot lies in
    [0, depth) and is the same one ring depth later. *)
Theorem frame_periodic_in_range (t : Z) :
  - maxFrames <= t -> t + 2 * maxFrames <= int_max ->
  0 <= frame t < maxFrames
  /\ 0 <= frame (t + maxFrames) < maxFrames
  /\ frame t = frame (t + maxFrames).
Proof.
  intros Hlo Hhi.
  assert (Hm : 0 < maxFrames) by (unfold maxFrames; lia).
  rewrite !frame_small by (unfold maxFrames in *; lia).
  repeat split; try (apply Z.mod_pos_bound; exact Hm).
  replace (maxFrames + (t + maxFrames)) with (maxFrames + t + 1 * maxFrames)
    by lia.
  now rewrite Z.mod_add by (unfold maxFrames; lia).
Qed.

Lemma frame_periodic_in_range_witness :
  0 <= frame 7 < maxFrames
  /\ 0 <= frame (7 + maxFrames) < maxFrames
  /\ frame 7 = frame (7 + maxFrames).
Proof.
  apply (frame_periodic_in_range 7); vm_compute; intro Hc; discriminate Hc.
Defined.

(** ** The history ring before it is populated *)

Section InitialBuffer.
Context {L : Libretro}.

Lemma getState_returns_inv (port : N) (tick : Z) (e : Engine) :
  panics (getState port tick e) = false ->
  exists arr, live e = Some arr /\ (N.to_nat port < length arr)%nat.
Proof.
  unfold getState, bind_, get, lift_opt, at_uint.
  destruct (live e) as [arr|]; simpl; [|discriminate].
  destruct (arr !! N.to_nat port) as [ring|] eqn:Hring; simpl;
    [|discriminate].
  intros _. exists arr. split; [reflexivity|].
  eapply lookup_lt_Some; eassumption.
Qed.

(** C10: in the initial state [buffers] is empty, so getState, setState and
    initializeBuffer panic for every port; and wherever getState returns for
    every port below MaxPlayers, the buffer holds at least MaxPlayers
    rings. *)
Theorem history_needs_populated_buffers :
  live init_engine = Some []
  /\ (forall (h : Host) (port : N) (tick : Z) (st : playerState),
        getState port tick init_engine = Panic init_engine
        /\ setState h port st init_engine = Panic init_engine
        /\ initializeBuffer port init_engine = Panic init_engine)
  /\ (forall (e : Engine) (tick : Z),
        (forall port : N, (port < N.of_nat MaxPlayers)%N ->
                          panics (getState port tick e) = false) ->
        exists arr, live e = Some arr /\ (MaxPlayers <= length arr)%nat).
Proof.
  split; [reflexivity|]. split.
  - intros h port tick st. repeat split.
  - intros e tick Hall.
    destruct (getState_returns_inv 4%N tick e) as (arr & Hlive & Hlen).
    + apply Hall. reflexivity.
    + exists arr. split; [exact Hlive|]. unfold MaxPlayers.
      change (N.to_nat 4) with 4%nat in Hlen. lia.
Qed.

End InitialBuffer.

(** ** Restoring a blob *)

Lemma Unserialize_buffers (a : addr) (arr : list inputState) (e : Engine) :
  heap e !! a = Some arr ->
  Unserialize (AnySlice a) e
  = Ret tt (with_buffers (length (heap e)) (with_heap (heap e ++ [arr]) e)).
Proof.
  intros Ha. unfold Unserialize, bind_, deepcopy_Anything.
  rewrite Ha. reflexivity.
Qed.

(** C1 (as stated, refuted): the live buffer holds five rings, the blob is a
    []inputState of three; the restore returns, and the history read of port 0
    is no longer what it was. *)
Lemma Unserialize_short_blob_counterexample :
  let z := zero_inputState (L := libretro_h) in
  let e := engine_with z (replicate 5 (one_bit 0 0)) [replicate 3 z] in
  let blob := AnySlice 1 in
  heap e !! 1%nat = Some (replicate 3 z)
  /\ panics (Unserialize blob e) = false
  /\ result (getState 0 0 (state_of (Unserialize blob e)))
     <> result (getState 0 0 e).
Proof.
  vm_compute. repeat split. intros Hc. discriminate Hc.
Qed.

(** C1 (amended): whenever the blob's dynamic type is not []inputState (a
    blob of rings of another depth is of another type), Unserialize panics
    and leaves the engine as it was, so every history read is unchanged. *)
Theorem Unserialize_foreign_blob_panics (blob : any) (e : Engine) :
  is_buffers blob = false ->
  Unserialize blob e = Panic e
  /\ forall (port : N) (tick : Z),
       getState port tick (state_of (Unserialize blob e))
       = getState port tick e.
Proof.
  intros Hty.
  assert (Hp : Unserialize blob e = Panic e)
    by (destruct blob; try discriminate Hty; reflexivity).
  split; [exact Hp|]. intros port tick. now rewrite Hp.
Qed.

Lemma Unserialize_foreign_blob_panics_witness :
  let z := zero_inputState (L := libretro_h) in
  let e := engine_with z (replicate 5 (one_bit 0 0)) [] in
  let blob := AnyRings 45 (replicate 5 (replicate 45 (z !!! 0%nat))) in
  Unserialize blob e = Panic e
  /\ forall (port : N) (tick : Z),
       getState port tick (state_of (Unserialize blob e))
       = getState port tick e.
Proof.
  intros z e blob.
  apply (Unserialize_foreign_blob_panics blob e). reflexivity.
Defined.

(** ** The query callback *)

Section Query.
Context {L : Libretro}.

Lemma State_guard_false (port device index id : N) :
  ((255 <=? id) || (0 <? index) || (N.of_nat MaxPlayers <=? port)
   || negb (N.land device DeviceJoypad =? 1)
   || (DeviceIDJoypadR3 <? id))%N = false ->
  (id < 255 /\ index = 0 /\ port < N.of_nat MaxPlayers
   /\ N.land device DeviceJoypad = 1 /\ id <= DeviceIDJoypadR3)%N.
Proof.
  rewrite !orb_false_iff, negb_false_iff.
  rewrite !N.leb_gt, !N.ltb_ge, N.eqb_eq. intros ((((? & ?) & ?) & ?) & ?).
  repeat split; try assumption. lia.
Qed.

(** C2 (amended): State returns 0, without reading anything, whenever the
    port is MaxPlayers or more, or the sub-index is not 0, or the action id
    is ActionLast or more, or the device kind and-ed with DeviceJoypad is
    not 1. *)
Theorem State_out_of_contract (port device index id : N) (e : Engine) :
  (N.of_nat MaxPlayers <= port \/ index <> 0 \/ ActionLast <= id
   \/ N.land device DeviceJoypad <> 1)%N ->
  State port device index id e = Ret 0 e.
Proof.
  intros Hbad. unfold State.
  destruct ((255 <=? id) || (0 <? index) || (N.of_nat MaxPlayers <=? port)
            || negb (N.land device DeviceJoypad =? 1)
            || (DeviceIDJoypadR3 <? id))%N eqn:Hg; [reflexivity|].
  apply State_guard_false in Hg. exfalso.
  unfold ActionLast in Hbad. lia.
Qed.

(** C3 (amended): for a port below MaxPlayers, sub-index 0, a device kind
    of the joypad class and an action id no higher than DeviceIDJoypadR3
    (and below 255), State returns 1 when the live snapshot bit of that
    player and action is set and 0 otherwise; the answer does not depend on
    the history buffer. *)
Theorem State_in_contract (port device id : N) (e : Engine) :
  (port < N.of_nat MaxPlayers)%N ->
  N.land device DeviceJoypad = 1%N ->
  (id <= DeviceIDJoypadR3)%N -> (id < 255)%N ->
  wf_inputState (polled e) ->
  State port device 0 id e
  = Ret (if bit (polled e) (N.to_nat port) (N.to_nat id) then 1 else 0) e
  /\ forall (b : addr) (hp : list (list inputState)),
       result (State port device 0 id (with_heap hp (with_buffers b e)))
       = result (State port device 0 id e).
Proof.
  intros Hport Hdev Hid Hid' [Hlen Hrows].
  assert (Hg : ((255 <=? id) || (0 <? 0) || (N.of_nat MaxPlayers <=? port)
                || negb (N.land device DeviceJoypad =? 1)
                || (DeviceIDJoypadR3 <? id))%N = false).
  { rewrite !orb_false_iff, negb_false_iff.
    rewrite !N.leb_gt, !N.ltb_ge, N.eqb_eq. repeat split; lia. }
  destruct (lookup_lt_is_Some_2 (polled e) (N.to_nat port)) as [row Hrow];
    [lia|].
  assert (Hwf : wf_playerState row).
  { eapply Forall_lookup_1; eassumption. }
  destruct (lookup_lt_is_Some_2 row (N.to_nat id)) as [v Hv].
  { unfold wf_playerState, ActionLast in Hwf. lia. }
  assert (Hbit : bit (polled e) (N.to_nat port) (N.to_nat id) = v).
  { unfold bit. rewrite (list_lookup_total_correct _ _ _ Hrow).
    now rewrite (list_lookup_total_correct _ _ _ Hv). }
  assert (Hst : forall e', polled e' = polled e ->
     State port device 0 id e' = Ret (if v then 1 else 0) e').
  { intros e' He'. unfold State. rewrite Hg.
    unfold bind_, getLatest, bind_, get, lift_opt, at_uint.
    rewrite He', Hrow. simpl. rewrite Hv. now destruct v. }
  split.
  - rewrite Hbit. now apply Hst.
  - intros b hp. now rewrite !Hst.
Qed.

End Query.

(** C2 (as stated, refuted): device kind 3 is not the joypad kind 1, yet the
    query goes through and answers the live bit. *)
Lemma State_odd_device_counterexample :
  let z := zero_inputState (L := libretro_h) in
  let e := engine_with (one_bit 0 0) (replicate 5 z) [] in
  3%N <> DeviceJoypad (Libretro := libretro_h)
  /\ State (L := libretro_h) 0 3 0 0 e = Ret 1 e.
Proof.
  vm_compute. split; [intros Hc; discriminate Hc | reflexivity].
Qed.

Lemma State_out_of_contract_witness :
  let z := zero_inputState (L := libretro_h) in
  let e := engine_with (one_bit 0 0) (replicate 5 z) [] in
  State (L := libretro_h) 0 2 0 0 e = Ret 0 e.
Proof.
  intros z e.
  apply (State_out_of_contract (L := libretro_h) 0 2 0 0 e).
  right. right. right. vm_compute. intros Hc. discriminate Hc.
Defined.

(** C3 (as stated, refuted): action id 16 (the menu toggle) is below
    ActionLast and its live bit is set, yet the query answers 0. *)
Lemma State_hotkey_counterexample :
  let z := zero_inputState (L := libretro_h) in
  let e := engine_with (one_bit 0 16) (replicate 5 z) [] in
  (16 < ActionLast (L := libretro_h))%N
  /\ bit (polled e) 0 16 = true
  /\ State (L := libretro_h) 0 1 0 16 e = Ret 0 e.
Proof.
  vm_compute. repeat split.
Qed.

Lemma one_bit_wf (p a : nat) : wf_inputState (L := libretro_h) (one_bit p a).
Proof.
  unfold one_bit, wf_inputState. cbv zeta. split.
  - now rewrite length_insert.
  - destruct (decide (p < MaxPlayers)%nat) as [Hp|Hp].
    + apply Forall_insert.
      * apply Forall_replicate. reflexivity.
      * unfold wf_playerState, zero_inputState. rewrite length_insert.
        rewrite list_lookup_total_alt, lookup_replicate_2 by exact Hp.
        reflexivity.
    + rewrite list_insert_ge.
      * apply Forall_replicate. reflexivity.
      * unfold zero_inputState. rewrite length_replicate. lia.
Qed.

Lemma State_in_contract_witness :
  let z := zero_inputState (L := libretro_h) in
  let e := engine_with (one_bit 0 5) (replicate 5 z) [] in
  State (L := libretro_h) 0 1 0 5 e
  = Ret (if bit (polled e) 0 5 then 1 else 0) e
  /\ forall (b : addr) (hp : list (list inputState)),
       result (State (L := libretro_h) 0 1 0 5
                     (with_heap hp (with_buffers b e)))
       = result (State (L := libretro_h) 0 1 0 5 e).
Proof.
  intros z e.
  apply (State_in_contract (L := libretro_h) 0 1 5 e);
    [reflexivity | reflexivity | vm_compute; intros Hc; discriminate Hc
    | reflexivity | apply one_bit_wf].
Defined.

(** ** Invariants of computations *)

Section Preserves.
Context (P : Engine -> Prop).

Lemma preserves_ret {A} (a : A) : preserves P (ret a).
Proof. intros e He. exact He. Qed.

Lemma preserves_panic {A} : preserves P (@panic A).
Proof. intros e He. exact He. Qed.

Lemma preserves_get : preserves P get.
Proof. intros e He. exact He. Qed.

Lemma preserves_lift_opt {A} (o : option A) : preserves P (lift_opt o).
Proof. destruct o; [apply preserves_ret | apply preserves_panic]. Qed.

Lemma preserves_bind {A B} (c : M A) (k : A -> M B) :
  preserves P c -> (forall a, preserves P (k a)) -> preserves P (bind_ c k).
Proof.
  intros Hc Hk e He. unfold bind_. specialize (Hc e He).
  destruct (c e) as [a e'|e']; simpl in *; [now apply Hk | exact Hc].
Qed.

Lemma preserves_modify (f : Engine -> Engine) :
  (forall e, P e -> P (f e)) -> preserves P (modify f).
Proof. intros Hf e He. now apply Hf. Qed.

Lemma preserves_for_each {A} (l : list A) (body : A -> M unit) :
  (forall x, preserves P (body x)) -> preserves P (for_each l body).
Proof.
  intros Hbody. induction l as [|x l IH]; simpl.
  - apply preserves_ret.
  - apply preserves_bind; [apply Hbody | intros _; exact IH].
Qed.

Lemma preserves_if {A} (b : bool) (c1 c2 : M A) :
  preserves P c1 -> preserves P c2 -> preserves P (if b then c1 else c2).
Proof. now destruct b. Qed.
End Preserves.

(** ** Polling only ever writes the live snapshot *)

Section Polling.
Context {L : Libretro}.

Section PollInvariant.
Context (P : Engine -> Prop).
Hypothesis setPolled_ok : forall p v, preserves P (setPolled p v).

Lemma preserves_pollBind h p bs axs kv :
  preserves P (pollBind h p bs axs kv).
Proof using setPolled_ok.
  destruct kv as [k v]. unfold pollBind.
  repeat first
    [ apply setPolled_ok
    | apply preserves_ret
    | apply preserves_lift_opt
    | apply preserves_if
    | apply preserves_bind; [|intros ?] ].
Qed.

Lemma preserves_pollJoypad h p : preserves P (pollJoypad h p).
Proof using setPolled_ok.
  unfold pollJoypad. apply preserves_if; [|apply preserves_ret].
  apply preserves_for_each. intros kv. apply preserves_pollBind.
Qed.

Lemma preserves_pollJoypads h : preserves P (pollJoypads h).
Proof using setPolled_ok.
  apply preserves_for_each. intros p. apply preserves_pollJoypad.
Qed.

Lemma preserves_pollKeyboard h : preserves P (pollKeyboard h).
Proof using setPolled_ok.
  apply preserves_for_each. intros kv.
  apply preserves_bind; [apply preserves_get | intros e0].
  apply preserves_bind; [apply preserves_lift_opt | intros w].
  apply preserves_if; [apply setPolled_ok | apply preserves_ret].
Qed.
End PollInvariant.

(** A property that does not look at the live snapshot survives
    [setPolled]. *)
Lemma setPolled_frame (P : Engine -> Prop) p v :
  (forall e s, P e -> P (with_polled s e)) -> preserves P (setPolled p v).
Proof.
  intros HP. unfold setPolled.
  apply preserves_bind; [apply preserves_get | intros e0].
  apply preserves_bind; [apply preserves_lift_opt | intros row].
  apply preserves_bind; [apply preserves_lift_opt | intros _].
  apply preserves_modify. intros e He. now apply HP.
Qed.

Lemma zero_inputState_wf : wf_inputState zero_inputState.
Proof.
  split; [apply length_replicate|].
  apply Forall_replicate. apply length_replicate.
Qed.

Lemma wf_inputState_set (s : inputState) (p a : nat) (row : playerState) :
  wf_inputState s -> s !! p = Some row ->
  wf_inputState (<[p := <[a := true]> row]> s).
Proof.
  intros [Hlen Hrows] Hrow. split.
  - now rewrite length_insert.
  - apply Forall_insert; [exact Hrows|].
    unfold wf_playerState. rewrite length_insert.
    eapply Forall_lookup_1 in Hrows; eauto.
Qed.

(** [setPolled] keeps the shape of the live snapshot. *)
Lemma setPolled_wf (Q : Engine -> Prop) p v :
  (forall e s, Q e -> Q (with_polled s e)) ->
  preserves (fun e => wf_inputState (polled e) /\ Q e) (setPolled p v).
Proof.
  intros HQ e [Hwf He]. unfold setPolled, bind_, get, lift_opt, at_uint.
  destruct (polled e !! p) as [row|] eqn:Hrow; simpl; [|now split].
  destruct (row !! N.to_nat v); simpl; [|now split].
  split; [now apply wf_inputState_set | now apply HQ].
Qed.

(** Reading back what [setPolled] wrote. *)
Lemma setPolled_returns p v e :
  wf_inputState (polled e) ->
  (p < MaxPlayers)%nat -> (v < ActionLast)%N ->
  exists e', setPolled p v e = Ret tt e'
             /\ bit (polled e') p (N.to_nat v) = true
             /\ wf_inputState (polled e').
Proof.
  intros [Hlen Hrows] Hp Hv.
  destruct (lookup_lt_is_Some_2 (polled e) p) as [row Hrow]; [lia|].
  assert (Hwf : wf_playerState row) by (eapply Forall_lookup_1; eauto).
  destruct (lookup_lt_is_Some_2 row (N.to_nat v)) as [b Hb].
  { unfold wf_playerState in Hwf. lia. }
  eexists. unfold setPolled, bind_, get, lift_opt, at_uint.
  rewrite Hrow. simpl. rewrite Hb. simpl. split; [reflexivity|]. split.
  - unfold bit, with_polled. simpl.
    rewrite list_lookup_total_insert_eq by lia.
    apply list_lookup_total_insert_eq. unfold wf_playerState in Hwf. lia.
  - now apply wf_inputState_set.
Qed.

End Polling.

(** ** The poll cycle *)

Section PollCycle.
Context {L : Libretro}.

Lemma bit_edges (f : bool -> bool -> bool) (new old : inputState) (p a : nat) :
  wf_inputState new -> (p < MaxPlayers)%nat -> (a < N.to_nat ActionLast)%nat ->
  bit (edges f new old) p a = f (bit new p a) (bit old p a).
Proof.
  intros [Hlen Hrows] Hp Ha.
  destruct (lookup_lt_is_Some_2 new p) as [row Hrow]; [lia|].
  assert (Hwf : wf_playerState row) by (eapply Forall_lookup_1; eauto).
  destruct (lookup_lt_is_Some_2 row a) as [b Hb].
  { unfold wf_playerState in Hwf. lia. }
  unfold bit at 1 2, edges.
  erewrite (list_lookup_total_correct (imap _ new) p).
  2:{ rewrite list_lookup_imap, Hrow. reflexivity. }
  erewrite (list_lookup_total_correct (imap _ row) a).
  2:{ rewrite list_lookup_imap, Hb. reflexivity. }
  rewrite (list_lookup_total_correct _ _ _ Hrow).
  now rewrite (list_lookup_total_correct _ _ _ Hb).
Qed.

Lemma Poll_returns_inv (h : Host) (e e' : Engine) :
  Poll h e = Ret tt e' ->
  exists e2 e3,
    pollKeyboard h (with_polled zero_inputState e) = Ret tt e2
    /\ pollJoypads h e2 = Ret tt e3
    /\ NewState e' = polled e3
    /\ OldState e' = polled e3
    /\ Pressed e' = edges (fun n o => n && negb o) (polled e3) (OldState e3)
    /\ Released e' = edges (fun n o => negb n && o) (polled e3) (OldState e3)
    /\ buffers e' = buffers e3 /\ heap e' = heap e3.
Proof.
  unfold Poll, bind_ at 1, modify at 1. unfold bind_ at 1.
  destruct (pollKeyboard h _) as [[] e2|e2] eqn:Hk; [|discriminate].
  unfold bind_ at 1.
  destruct (pollJoypads h e2) as [[] e3|e3] eqn:Hj; [|discriminate].
  cbn. intros [= <-]. exists e2, e3.
  split; [reflexivity|]. split; [exact Hj|]. repeat split.
Qed.

(** C5: after a poll cycle that completes, for every player and action the
    Pressed bit is new and not old, the Released bit is old and not new (old
    being the state the previous cycle left), the two are never both set, and
    the new state has become the old one. *)
Theorem Poll_edge_vectors (h : Host) (e e' : Engine) (p a : nat) :
  Poll h e = Ret tt e' ->
  (p < MaxPlayers)%nat -> (a < N.to_nat ActionLast)%nat ->
  bit (Pressed e') p a = bit (NewState e') p a && negb (bit (OldState e) p a)
  /\ bit (Released e') p a
     = negb (bit (NewState e') p a) && bit (OldState e) p a
  /\ ~ (bit (Pressed e') p a = true /\ bit (Released e') p a = true)
  /\ OldState e' = NewState e'.
Proof.
  intros HPoll Hp Ha.
  destruct (Poll_returns_inv h e e' HPoll)
    as (e2 & e3 & Hk & Hj & HN & HO & HP & HR & _).
  set (Inv := fun x : Engine =>
                wf_inputState (polled x) /\ OldState x = OldState e).
  assert (Hset : forall q v, preserves Inv (setPolled q v)).
  { intros q v. apply (setPolled_wf (fun x => OldState x = OldState e)).
    intros x s Hx. exact Hx. }
  assert (H2 : Inv e2).
  { pose proof (preserves_pollKeyboard Inv Hset h
                  (with_polled zero_inputState e)) as Hpk.
    rewrite Hk in Hpk. apply Hpk. split; [apply zero_inputState_wf|].
    reflexivity. }
  assert (H3 : Inv e3).
  { pose proof (preserves_pollJoypads Inv Hset h e2 H2) as Hpj.
    now rewrite Hj in Hpj. }
  destruct H3 as [Hwf Hold].
  rewrite HP, HR, HN, HO, Hold, !bit_edges by assumption.
  repeat split.
  destruct (bit (polled e3) p a), (bit (OldState e) p a); simpl;
    intros [? ?]; discriminate.
Qed.

(** What a completed poll cycle leaves of the history buffer: all of it. *)
Lemma Poll_ring_untouched (h : Host) (e : Engine) :
  buffers (state_of (Poll h e)) = buffers e
  /\ heap (state_of (Poll h e)) = heap e.
Proof.
  set (Inv := fun x : Engine => buffers x = buffers e /\ heap x = heap e).
  assert (Hset : forall q v, preserves Inv (setPolled q v)).
  { intros q v. apply setPolled_frame. intros x s Hx. exact Hx. }
  change (Inv (state_of (Poll h e))).
  assert (HPoll : preserves Inv (Poll h)).
  { unfold Poll.
    repeat first
      [ apply preserves_pollKeyboard; exact Hset
      | apply preserves_pollJoypads; exact Hset
      | apply preserves_ret
      | apply preserves_get
      | apply preserves_modify; intros x Hx; exact Hx
      | apply preserves_bind; [|intros ?] ]. }
  apply HPoll. split; reflexivity.
Qed.

End PollCycle.

Lemma Poll_edge_vectors_witness :
  let h := key_host 0 in
  let e := engine_with (zero_inputState (L := libretro_h)) [] [] in
  let e' := state_of (Poll (L := libretro_h) h e) in
  bit (Pressed e') 0 5 = bit (NewState e') 0 5 && negb (bit (OldState e) 0 5)
  /\ bit (Released e') 0 5
     = negb (bit (NewState e') 0 5) && bit (OldState e) 0 5
  /\ ~ (bit (Pressed e') 0 5 = true /\ bit (Released e') 0 5 = true)
  /\ OldState e' = NewState e'.
Proof.
  intros h e e'.
  apply (Poll_edge_vectors (L := libretro_h) h e e' 0 5);
    [ reflexivity | unfold MaxPlayers; lia | vm_compute; lia ].
Defined.

(** ** When a poll cycle completes *)

Section PollReturns.
Context {L : Libretro}.

Lemma for_each_returns {A} (Inv : Engine -> Prop) (l : list A)
    (body : A -> M unit) :
  (forall x e, x ∈ l -> Inv e -> exists e', body x e = Ret tt e' /\ Inv e') ->
  forall e, Inv e -> exists e', for_each l body e = Ret tt e' /\ Inv e'.
Proof.
  induction l as [|x l IH]; intros Hbody e He.
  - exists e. now split.
  - destruct (Hbody x e) as (e1 & Hx & H1); [left | exact He |].
    destruct (IH (fun y e0 Hy => Hbody y e0 (list_elem_of_further _ _ _ Hy))
                 e1 H1) as (e2 & Hl & H2).
    exists e2. split; [|exact H2].
    simpl. unfold bind_. now rewrite Hx.
Qed.

Lemma setPolled_polling (w : option Video) (p : nat) (v : N) (e : Engine) :
  polling w e -> (p < MaxPlayers)%nat -> (v < ActionLast)%N ->
  exists e', setPolled p v e = Ret tt e' /\ polling w e'.
Proof.
  intros [Hwf Hvid] Hp Hv.
  destruct (setPolled_returns p v e Hwf Hp Hv) as (e' & He' & _ & Hwf').
  exists e'. split; [exact He'|]. split; [exact Hwf'|].
  pose proof (setPolled_frame (fun x => vid x = w) p v
                (fun x s Hx => Hx) e Hvid) as Hkeep.
  now rewrite He' in Hkeep.
Qed.

Lemma pollBind_returns (w : option Video) (h : Host) (p : nat) (bs : list Z)
    (axs : list float32) (k : bind) (v : N) (e : Engine) :
  MapAxisToDPad h = false ->
  polling w e -> (p < MaxPlayers)%nat -> (v < ActionLast)%N ->
  exists e', pollBind h p bs axs (k, v) e = Ret tt e' /\ polling w e'.
Proof.
  intros Hoff He Hp Hv. unfold pollBind. rewrite Hoff. simpl.
  assert (Hstep : forall b : bool,
            exists e', (if b then setPolled p v else ret tt) e = Ret tt e'
                       /\ polling w e').
  { intros [|]; [now apply setPolled_polling | exists e; now split]. }
  assert (Hfirst : exists e',
            (if (kind k =? btn)%N
             then if btn_fires k bs then setPolled p v else ret tt
             else if (kind k =? axis)%N
                  then if axis_fires k axs then setPolled p v else ret tt
                  else ret tt) e = Ret tt e' /\ polling w e').
  { destruct (kind k =? btn)%N; [apply Hstep|].
    destruct (kind k =? axis)%N; [apply Hstep|]. exists e. now split. }
  destruct Hfirst as (e' & He' & Hinv). exists e'.
  unfold bind_ at 1. rewrite He'. now split.
Qed.

(** X10: with the axis-to-dpad setting off, every binding naming an action
    below ActionLast, and the window installed whenever a key is bound, Poll
    returns. *)
Lemma Poll_returns (h : Host) (e : Engine) :
  MapAxisToDPad h = false ->
  (keyBinds h <> [] -> is_Some (vid e)) ->
  (forall kv, kv ∈ keyBinds h -> (snd kv < ActionLast)%N) ->
  (forall p jb kv, joyBinds h !! GetName h p = Some jb -> kv ∈ jb ->
                   (snd kv < ActionLast)%N) ->
  exists e', Poll h e = Ret tt e'.
Proof.
  intros Hoff Hvid Hkeys Hjoys.
  set (e1 := with_polled zero_inputState e).
  assert (H1 : polling (vid e) e1) by (split; [apply zero_inputState_wf|done]).
  destruct (for_each_returns (polling (vid e)) (keyBinds h)
              (fun kv => e0 <~ get ;;
                         w <~ lift_opt (vid e0) ;;
                         if GetKey h w (fst kv) =? Press
                         then setPolled localPlayerPort (snd kv)
                         else ret tt))
    with (e := e1) as (e2 & Hk & H2); [|exact H1|].
  { intros kv e0 Hin He0.
    destruct Hvid as [w Hw]; [intros Hnil; rewrite Hnil in Hin; inversion Hin|].
    unfold bind_, get, lift_opt. destruct He0 as [Hwf0 Hv0].
    rewrite Hv0. rewrite Hw in *. simpl.
    destruct (GetKey h w (fst kv) =? Press).
    - apply setPolled_polling; [split; assumption | unfold MaxPlayers,
        localPlayerPort; lia | now apply Hkeys].
    - exists e0. split; [reflexivity|]. now split. }
  destruct (for_each_returns (polling (vid e)) (seq 0 MaxPlayers)
              (pollJoypad h)) with (e := e2) as (e3 & Hj & H3); [|exact H2|].
  { intros p e0 Hin He0. apply elem_of_seq in Hin.
    unfold pollJoypad. cbv zeta.
    destruct (0 <? length (GetButtons h p))%nat; [|exists e0; now split].
    apply for_each_returns; [|exact He0].
    intros [k v] e4 Hkv He4. apply pollBind_returns; try assumption; [lia|].
    destruct (joyBinds h !! GetName h p) as [jb|] eqn:Hjb;
      [|inversion Hkv].
    exact (Hjoys p jb (k, v) Hjb Hkv). }
  eexists. unfold Poll. unfold bind_ at 1, modify at 1.
  unfold bind_ at 1. fold e1. unfold pollKeyboard. rewrite Hk.
  unfold bind_ at 1. unfold pollJoypads. rewrite Hj. reflexivity.
Qed.

End PollReturns.

(** ** A poll cycle and the history ring *)

(** C8 (as stated, refuted): with the Down key held, a poll cycle completes
    and NewState holds the bit, while the ring slot of the current tick still
    holds the vector it held before. *)
Lemma Poll_commit_counterexample :
  let z := zero_inputState (L := libretro_h) in
  let h := key_host 0 in
  let e := engine_with z (replicate 5 z) [] in
  let e' := state_of (Poll (L := libretro_h) h e) in
  panics (Poll (L := libretro_h) h e) = false
  /\ result (currentState h 0 e') = Some (z !!! 0%nat)
  /\ NewState e' !!! 0%nat = one_bit 0 5 !!! 0%nat
  /\ result (currentState h 0 e') <> Some (NewState e' !!! 0%nat).
Proof.
  vm_compute. repeat split. intros Hc. discriminate Hc.
Qed.

(** C8 (amended): no poll cycle commits to the history ring: whether Poll
    returns or panics, [buffers] and its backing array are what they were, so
    every history read, the slot of the current tick included, gives what it
    gave before the cycle. *)
Theorem Poll_leaves_history_ring {L : Libretro} (h : Host) (e : Engine) :
  buffers (state_of (Poll h e)) = buffers e
  /\ heap (state_of (Poll h e)) = heap e
  /\ forall (port : N) (tick : Z),
       result (getState port tick (state_of (Poll h e)))
       = result (getState port tick e).
Proof.
  destruct (Poll_ring_untouched h e) as [Hb Hh].
  split; [exact Hb|]. split; [exact Hh|]. intros port tick.
  unfold getState, bind_, get, lift_opt, live. rewrite Hb, Hh.
  destruct (heap e !! buffers e) as [arr|]; simpl; [|reflexivity].
  destruct (at_uint arr port) as [ring|]; simpl; [|reflexivity].
  now destruct (at_int ring (frame tick)).
Qed.

(** ** Joypad polling *)

Section Joypads.
Context {L : Libretro}.





(** C4 (amended): with the axis-to-dpad setting off, one pass over the loop
    body for an axis binding leaves the bit of its action set exactly when it
    was set already or the axis index is within the reported axes and
    direction * value > threshold * direction. For direction -1 and threshold
    0.5 that test is met by -0.7 and by -0.3, and not by +0.7. *)
Theorem pollBind_axis_rule (h : Host) (p : nat) (bs : list Z)
    (axs : list float32) (k : bind) (v : N) (e : Engine) :
  MapAxisToDPad h = false ->
  kind k = axis ->
  wf_inputState (polled e) ->
  (p < MaxPlayers)%nat -> (v < ActionLast)%N ->
  (exists e',
     pollBind h p bs axs (k, v) e = Ret tt e'
     /\ (bit (polled e') p (N.to_nat v) = true <->
         bit (polled e) p (N.to_nat v) = true
         \/ exists a, axs !! N.to_nat (index_ k) = Some a
                      /\ fgt (fmul (direction k) a)
                             (fmul (threshold k) (direction k)) = true))
  /\ (let left := Bind axis 0 f32_neg_one f32_half in
      axis_fires left [f32_neg_0_7] = true
      /\ axis_fires left [f32_neg_0_3] = true
      /\ axis_fires left [f32_0_7] = false).
Proof.
  intros Hoff Hk Hwf Hp Hv. split; [|vm_compute; repeat split].
  unfold pollBind. rewrite Hk, Hoff. simpl.
  unfold axis_fires, at_uint.
  destruct (axs !! N.to_nat (index_ k)) as [a|] eqn:Ha.
  - destruct (fgt (fmul (direction k) a) (fmul (threshold k) (direction k)))
      eqn:Hfire.
    + destruct (setPolled_returns p v e Hwf Hp Hv) as (e' & He' & Hbit & _).
      exists e'. unfold bind_ at 1. rewrite He'. split; [reflexivity|].
      split; [|intros _; exact Hbit]. intros _. right. now exists a.
    + exists e. split; [reflexivity|]. split; [now left|].
      intros [Hb|(a' & Heq & Hc)]; [exact Hb | simplify_eq; congruence].
  - exists e. split; [reflexivity|]. split; [now left|].
    intros [Hb|(a' & Hc & _)]; [exact Hb | discriminate].
Qed.

End Joypads.

(** C4 (as stated, refuted): with the binding of axis 0, direction -1,
    threshold 0.5 to Left, polling the joypad with the axis at -0.3 sets the
    Left bit. *)
Lemma pollJoypads_axis_counterexample :
  let e := engine_with (zero_inputState (L := libretro_h)) [] [] in
  let e' := state_of (pollJoypads (L := libretro_h) (pad_host f32_neg_0_3) e) in
  panics (pollJoypads (L := libretro_h) (pad_host f32_neg_0_3) e) = false
  /\ bit (polled e') 0 (N.to_nat (DeviceIDJoypadLeft (Libretro := libretro_h)))
     = true.
Proof.
  vm_compute. split; reflexivity.
Qed.

Lemma pollBind_axis_rule_witness :
  let e := engine_with (zero_inputState (L := libretro_h)) [] [] in
  let k := Bind axis 0 f32_neg_one f32_half in
  (exists e',
     pollBind (L := libretro_h) (pad_host f32_neg_0_7) 0 [0] [f32_neg_0_7]
              (k, 6%N) e = Ret tt e'
     /\ (bit (polled e') 0 (N.to_nat 6) = true <->
         bit (polled e) 0 (N.to_nat 6) = true
         \/ exists a, [f32_neg_0_7] !! N.to_nat (index_ k) = Some a
                      /\ fgt (fmul (direction k) a)
                             (fmul (threshold k) (direction k)) = true))
  /\ (let left := Bind axis 0 f32_neg_one f32_half in
      axis_fires left [f32_neg_0_7] = true
      /\ axis_fires left [f32_neg_0_3] = true
      /\ axis_fires left [f32_0_7] = false).
Proof.
  intros e k.
  apply (pollBind_axis_rule (L := libretro_h) (pad_host f32_neg_0_7) 0 [0]
           [f32_neg_0_7] k 6 e);
    [ reflexivity | reflexivity | apply zero_inputState_wf
    | unfold MaxPlayers; lia | reflexivity ].
Defined.


(** ** Saving and restoring the history buffer *)

(** Writing through [buffers] leaves every other backing array alone. *)
Lemma store_frame (a b : addr) (v : option (list inputState)) (port : N)
    (i : Z) (st : playerState) :
  a <> b ->
  preserves (fun x => buffers x = b /\ heap x !! a = v) (store port i st).
Proof.
  intros Hab e [Hb Hv].
  unfold store, bind_, get, lift_opt, modify, live.
  destruct (heap e !! buffers e) as [arr|]; simpl; [|now split].
  destruct (at_uint arr port) as [ring|]; simpl; [|now split].
  destruct (at_int ring i); simpl; [|now split].
  split; [exact Hb|].
  rewrite list_lookup_insert_ne by congruence. exact Hv.
Qed.

Lemma setState_frame (a b : addr) (v : option (list inputState)) (h : Host)
    (port : N) (st : playerState) :
  a <> b ->
  preserves (fun x => buffers x = b /\ heap x !! a = v) (setState h port st).
Proof.
  intros Hab. unfold setState.
  apply preserves_bind; [intros e He; exact He | intros [copy|]].
  - apply preserves_bind; [apply preserves_ret | intros i].
    apply preserves_bind; [|intros st'; now apply store_frame].
    destruct copy; first [apply preserves_ret | apply preserves_panic].
  - apply preserves_panic.
Qed.

Lemma initializeBuffer_frame {L : Libretro} (a b : addr)
    (v : option (list inputState)) (port : N) :
  a <> b ->
  preserves (fun x => buffers x = b /\ heap x !! a = v)
            (initializeBuffer port).
Proof.
  intros Hab. apply preserves_for_each. intros i. now apply store_frame.
Qed.

Lemma getState_same_live (port : N) (tick : Z) (e1 e2 : Engine) :
  live e1 = live e2 ->
  result (getState port tick e1) = result (getState port tick e2).
Proof.
  intros Hl. unfold getState, bind_, get, lift_opt. rewrite Hl.
  destruct (live e2) as [arr|]; simpl; [|reflexivity].
  destruct (at_uint arr port) as [ring|]; simpl; [|reflexivity].
  now destruct (at_int ring (frame tick)).
Qed.

(** C7: on an engine whose [buffers] refers into the heap, Serialize returns a
    blob and Unserialize of that blob returns; every history read then gives
    what it gave before; the blob holds what the buffer held, in a backing
    array of its own, which neither setState nor initializeBuffer changes,
    whether they run on the rings that were serialized or on the restored
    ones. *)
Theorem Serialize_Unserialize_round_trip {L : Libretro} (e : Engine) :
  valid e ->
  exists (a : addr) (e1 e2 : Engine),
    Serialize e = Ret (AnySlice a) e1
    /\ Unserialize (AnySlice a) e1 = Ret tt e2
    /\ (forall (port : N) (tick : Z),
          result (getState port tick e2) = result (getState port tick e))
    /\ heap e1 !! a = live e
    /\ live e1 = live e
    /\ heap e2 !! a = live e
    /\ a <> buffers e1 /\ a <> buffers e2
    /\ (forall (h : Host) (port : N) (st : playerState),
          heap (state_of (setState h port st e1)) !! a = heap e1 !! a
          /\ heap (state_of (setState h port st e2)) !! a = heap e2 !! a)
    /\ (forall port : N,
          heap (state_of (initializeBuffer port e1)) !! a = heap e1 !! a
          /\ heap (state_of (initializeBuffer port e2)) !! a = heap e2 !! a).
Proof.
  intros Hv. unfold valid in Hv.
  destruct (lookup_lt_is_Some_2 (heap e) (buffers e) Hv) as [arr Harr].
  set (a := length (heap e)).
  set (e1 := with_heap (heap e ++ [arr]) e).
  set (e2 := with_buffers (length (heap e1))
               (with_heap (heap e1 ++ [arr]) e1)).
  assert (Ha1 : heap e1 !! a = Some arr).
  { unfold e1, a. simpl. apply list_lookup_middle. reflexivity. }
  assert (Hl1 : live e1 = Some arr).
  { unfold live, e1. simpl. rewrite lookup_app_l by exact Hv. exact Harr. }
  assert (Ha2 : heap e2 !! a = Some arr).
  { unfold e2. simpl. rewrite lookup_app_l; [exact Ha1|].
    unfold e1, a. simpl. rewrite length_app. simpl. lia. }
  assert (Hl2 : live e2 = Some arr).
  { unfold live, e2. simpl. apply list_lookup_middle. reflexivity. }
  assert (Hne1 : a <> buffers e1) by (unfold a, e1; simpl; lia).
  assert (Hne2 : a <> buffers e2).
  { unfold a, e2, e1. simpl. rewrite length_app. simpl. lia. }
  exists a, e1, e2. split.
  { unfold Serialize, bind_, get, deepcopy_Anything. rewrite Harr.
    reflexivity. }
  split; [now apply Unserialize_buffers|].
  split.
  { intros port tick. apply getState_same_live.
    rewrite Hl2. symmetry. exact Harr. }
  split; [now rewrite Ha1|]. split; [now rewrite Hl1|].
  split; [now rewrite Ha2|].
  split; [exact Hne1|]. split; [exact Hne2|]. split.
  - intros h port st. split.
    + apply (setState_frame a (buffers e1) (heap e1 !! a) h port st Hne1 e1).
      now split.
    + apply (setState_frame a (buffers e2) (heap e2 !! a) h port st Hne2 e2).
      now split.
  - intros port. split.
    + apply (initializeBuffer_frame a (buffers e1) (heap e1 !! a) port Hne1 e1).
      now split.
    + apply (initializeBuffer_frame a (buffers e2) (heap e2 !! a) port Hne2 e2).
      now split.
Qed.

Lemma Serialize_Unserialize_round_trip_witness :
  let z := zero_inputState (L := libretro_h) in
  let e := engine_with z (replicate 5 (one_bit 0 0)) [] in
  exists (a : addr) (e1 e2 : Engine),
    Serialize e = Ret (AnySlice a) e1
    /\ Unserialize (AnySlice a) e1 = Ret tt e2
    /\ (forall (port : N) (tick : Z),
          result (getState port tick e2) = result (getState port tick e))
    /\ heap e1 !! a = live e
    /\ live e1 = live e
    /\ heap e2 !! a = live e
    /\ a <> buffers e1 /\ a <> buffers e2
    /\ (forall (h : Host) (port : N) (st : playerState),
          heap (state_of (setState h port st e1)) !! a = heap e1 !! a
          /\ heap (state_of (setState h port st e2)) !! a = heap e2 !! a)
    /\ (forall port : N,
          heap (state_of (initializeBuffer (L := libretro_h) port e1)) !! a
          = heap e1 !! a
          /\ heap (state_of (initializeBuffer (L := libretro_h) port e2)) !! a
             = heap e2 !! a).
Proof.
  intros z e.
  apply (Serialize_Unserialize_round_trip (L := libretro_h) e).
  unfold valid. simpl. lia.
Defined.

(** ** The depth the ring has

    A ring is an [inputState], an array of MaxPlayers vectors: a history read
    whose slot is MaxPlayers or more is out of range. *)
Lemma getState_beyond_MaxPlayers {L : Libretro} (port : N) (tick : Z)
    (e : Engine) (arr : list inputState) :
  live e = Some arr -> Forall wf_inputState arr ->
  Z.of_nat MaxPlayers <= frame tick ->
  getState port tick e = Panic e.
Proof.
  intros Hl Hwf Hge. unfold getState, bind_, get, lift_opt. rewrite Hl. simpl.
  destruct (at_uint arr port) as [ring|] eqn:Hring; simpl; [|reflexivity].
  assert (Hr : wf_inputState ring) by (eapply Forall_lookup_1; eauto).
  unfold at_int. destruct (frame tick <? 0) eqn:Hneg; [reflexivity|].
  rewrite lookup_ge_None_2; [reflexivity|].
  destruct Hr as [Hlen _]. lia.
Qed.

Lemma history_needs_populated_buffers_witness :
  let z := zero_inputState (L := libretro_h) in
  let e := engine_with z (replicate 5 z) [] in
  exists arr, live e = Some arr /\ (MaxPlayers <= length arr)%nat.
Proof.
  intros z e.
  apply (proj2 (proj2 (history_needs_populated_buffers (L := libretro_h)))
           e 0).
  intros port Hport.
  destruct port as [|[[[]|[]|]|[[]|[]|]|]]; try reflexivity;
    vm_compute in Hport; discriminate Hport.
Defined.

(** * Further properties of the package *)

(** ** History reads and writes *)

Section HistoryRing.
Context {L : Libretro}.

Lemma at_int_ring (ring : inputState) (i : Z) :
  wf_inputState ring ->
  (is_Some (at_int ring i) <-> 0 <= i < Z.of_nat MaxPlayers).
Proof.
  intros [Hlen _]. unfold at_int.
  destruct (i <? 0) eqn:Hneg.
  - apply Z.ltb_lt in Hneg. split; [intros [x Hx]; discriminate | lia].
  - apply Z.ltb_ge in Hneg. rewrite lookup_lt_is_Some. lia.
Qed.

(** X1: a history read never changes the engine, and on a buffer of
    well-shaped rings it returns exactly when the port is within the buffer
    and the slot is in [0, MaxPlayers). *)
Theorem getState_returns_iff (port : N) (tick : Z) (e : Engine)
    (arr : list inputState) :
  live e = Some arr -> Forall wf_inputState arr ->
  state_of (getState port tick e) = e
  /\ (panics (getState port tick e) = false <->
      (N.to_nat port < length arr)%nat
      /\ 0 <= frame tick < Z.of_nat MaxPlayers).
Proof.
  intros Hl Hwf. unfold getState, bind_, get, lift_opt, at_uint.
  rewrite Hl. simpl.
  destruct (arr !! N.to_nat port) as [ring|] eqn:Hring; simpl.
  - assert (Hr : wf_inputState ring) by (eapply Forall_lookup_1; eauto).
    pose proof (at_int_ring ring (frame tick) Hr) as Hiff.
    apply lookup_lt_Some in Hring.
    destruct (at_int ring (frame tick)) as [st|]; simpl.
    + split; [reflexivity|]. split; [intros _|reflexivity].
      split; [exact Hring|]. apply Hiff. now exists st.
    + split; [reflexivity|]. split; [discriminate|].
      intros [_ Hb]. apply Hiff in Hb. destruct Hb as [x Hx]. discriminate.
  - apply lookup_ge_None in Hring.
    split; [reflexivity|]. split; [discriminate | lia].
Qed.

Lemma store_step (port : N) (i : nat) (v : playerState) (e : Engine)
    (arr : list inputState) (ring : inputState) :
  live e = Some arr -> arr !! N.to_nat port = Some ring ->
  (i < length ring)%nat ->
  exists e', store port (Z.of_nat i) v e = Ret tt e'
             /\ live e' = Some (<[N.to_nat port := <[i := v]> ring]> arr)
             /\ buffers e' = buffers e.
Proof.
  intros Hl Hring Hi.
  destruct (lookup_lt_is_Some_2 ring i Hi) as [old Hold].
  eexists. unfold store, bind_, get, lift_opt, at_uint, at_int, modify.
  rewrite Hl. simpl. rewrite Hring. simpl.
  destruct (Z.of_nat i <? 0) eqn:Hneg; [apply Z.ltb_lt in Hneg; lia|].
  rewrite Nat2Z.id, Hold. simpl. split; [reflexivity|].
  split; [|reflexivity]. unfold live. simpl.
  apply list_lookup_insert_eq. eapply lookup_lt_Some. exact Hl.
Qed.

Lemma store_beyond (port : N) (i : nat) (v : playerState) (e : Engine)
    (arr : list inputState) (ring : inputState) :
  live e = Some arr -> arr !! N.to_nat port = Some ring ->
  (length ring <= i)%nat ->
  store port (Z.of_nat i) v e = Panic e.
Proof.
  intros Hl Hring Hi.
  unfold store, bind_, get, lift_opt, at_uint, at_int, modify.
  rewrite Hl. simpl. rewrite Hring. simpl.
  destruct (Z.of_nat i <? 0); [reflexivity|].
  rewrite Nat2Z.id, lookup_ge_None_2 by exact Hi. reflexivity.
Qed.

(** X2: initializeBuffer runs its index up to maxFrames, but a ring has
    MaxPlayers slots: on a buffer of well-shaped rings it never returns. For
    a port outside the buffer nothing is written; for a port inside it the
    ring of that port has been zeroed by the time of the panic, and the other
    rings are as they were. *)
Theorem initializeBuffer_overruns_ring (port : N) (e : Engine)
    (arr : list inputState) :
  live e = Some arr -> Forall wf_inputState arr ->
  panics (initializeBuffer port e) = true
  /\ ((length arr <= N.to_nat port)%nat ->
      initializeBuffer port e = Panic e)
  /\ ((N.to_nat port < length arr)%nat ->
      live (state_of (initializeBuffer port e))
      = Some (<[N.to_nat port := zero_inputState]> arr)).
Proof.
  intros Hl Hwf.
  destruct (arr !! N.to_nat port) as [ring|] eqn:Hring.
  - assert (Hr : wf_inputState ring) by (eapply Forall_lookup_1; eauto).
    destruct Hr as [Hlen _]. unfold MaxPlayers in Hlen.
    pose proof (lookup_lt_Some _ _ _ Hring) as Hport.
    destruct ring as [|r0 [|r1 [|r2 [|r3 [|r4 [|r5 ring]]]]]];
      try discriminate Hlen.
    set (z := zero_playerState).
    destruct (store_step port 0 z e arr _ Hl Hring) as (e1 & H1 & Hl1 & _);
      [simpl; lia|].
    assert (Hr1 : forall x (a : list inputState),
              (N.to_nat port < length a)%nat ->
              <[N.to_nat port := x]> a !! N.to_nat port = Some x).
    { intros x a Ha. now apply list_lookup_insert_eq. }
    destruct (store_step port 1 z e1 _ _ Hl1 (Hr1 _ _ Hport))
      as (e2 & H2 & Hl2 & _); [simpl; lia|].
    rewrite list_insert_insert_eq in Hl2.
    destruct (store_step port 2 z e2 _ _ Hl2 (Hr1 _ _ Hport))
      as (e3 & H3 & Hl3 & _); [simpl; lia|].
    rewrite list_insert_insert_eq in Hl3.
    destruct (store_step port 3 z e3 _ _ Hl3 (Hr1 _ _ Hport))
      as (e4 & H4 & Hl4 & _); [simpl; lia|].
    rewrite list_insert_insert_eq in Hl4.
    destruct (store_step port 4 z e4 _ _ Hl4 (Hr1 _ _ Hport))
      as (e5 & H5 & Hl5 & _); [simpl; lia|].
    rewrite list_insert_insert_eq in Hl5. simpl in Hl5.
    pose proof (store_beyond port 5 z e5 _ _ Hl5 (Hr1 _ _ Hport)) as H6.
    assert (Hrun : initializeBuffer port e = Panic e5).
    { unfold initializeBuffer.
      change (seq 0 (Z.to_nat maxFrames))
        with (0 :: 1 :: 2 :: 3 :: 4 :: 5 :: seq 6 54)%nat.
      simpl for_each. unfold bind_ at 1. fold z.
      change (Z.of_nat 0) with 0 in *. rewrite H1.
      unfold bind_ at 1. rewrite H2. unfold bind_ at 1. rewrite H3.
      unfold bind_ at 1. rewrite H4. unfold bind_ at 1. rewrite H5.
      unfold bind_ at 1. rewrite H6; [reflexivity | simpl; lia]. }
    rewrite Hrun. simpl. split; [reflexivity|].
    split; [intros Hge; lia|]. intros _. exact Hl5.
  - assert (Hrun : initializeBuffer port e = Panic e).
    { unfold initializeBuffer.
      change (seq 0 (Z.to_nat maxFrames)) with (0 :: seq 1 59)%nat.
      simpl for_each. unfold bind_ at 1.
      unfold store, bind_, get, lift_opt, at_uint. rewrite Hl. simpl.
      rewrite Hring. reflexivity. }
    rewrite Hrun. split; [reflexivity|]. split; [reflexivity|].
    intros Hlt. apply lookup_ge_None in Hring. lia.
Qed.

End HistoryRing.

(** X3: setState never commits: on every call the deep copy of the vector
    comes back as an unnamed array, the assertion [copy.(playerState)]
    panics, and the engine, with every history read, is as it was. *)
Theorem setState_never_commits (h : Host) (port : N) (st : playerState)
    (e : Engine) :
  setState h port st e = Panic e
  /\ forall (q : N) (tick : Z),
       getState q tick (state_of (setState h port st e)) = getState q tick e.
Proof.
  split; [reflexivity|]. intros q tick. reflexivity.
Qed.

(** X4: a save state survives later commits: after Serialize, whatever
    setState and initializeBuffer then do to the live rings, Unserialize of
    the blob returns and every history read gives what it gave when the blob
    was taken. *)
Theorem restore_after_writes {L : Libretro} (h : Host) (port port' : N)
    (st : playerState) (blob : any) (e e1 : Engine) :
  valid e ->
  Serialize e = Ret blob e1 ->
  let e2 := state_of (initializeBuffer port' (state_of (setState h port st e1)))
  in
  exists e3,
    Unserialize blob e2 = Ret tt e3
    /\ forall (q : N) (tick : Z),
         result (getState q tick e3) = result (getState q tick e).
Proof.
  intros Hv HS e2. unfold valid in Hv.
  destruct (lookup_lt_is_Some_2 (heap e) (buffers e) Hv) as [arr Harr].
  unfold Serialize, bind_, get, deepcopy_Anything in HS.
  rewrite Harr in HS. simpl in HS. injection HS as <- <-.
  set (a := length (heap e)).
  set (e1 := with_heap (heap e ++ [arr]) e) in *.
  assert (Hne : a <> buffers e1) by (unfold a, e1; simpl; lia).
  assert (Ha1 : buffers e1 = buffers e1 /\ heap e1 !! a = Some arr).
  { split; [reflexivity|]. unfold e1, a. simpl.
    apply list_lookup_middle. reflexivity. }
  pose proof (setState_frame a (buffers e1) (Some arr) h port st Hne e1 Ha1)
    as Hw1.
  pose proof (initializeBuffer_frame a (buffers e1) (Some arr) port' Hne _ Hw1)
    as [_ Hw2].
  fold e2 in Hw2.
  eexists. split; [apply (Unserialize_buffers a arr e2 Hw2)|].
  intros q tick. apply getState_same_live. unfold live at 1. simpl.
  rewrite list_lookup_middle by reflexivity. symmetry. exact Harr.
Qed.

(** ** The query callback on any input *)

(** X5: whatever its four arguments, State answers 0 or 1, does not panic
    and leaves the engine as it was. *)
Theorem State_total {L : Libretro} (port device index id : N) (e : Engine) :
  wf_inputState (polled e) ->
  exists r, State port device index id e = Ret r e /\ (r = 0 \/ r = 1).
Proof.
  intros [Hlen Hrows]. unfold State.
  destruct ((255 <=? id) || (0 <? index) || (N.of_nat MaxPlayers <=? port)
            || negb (N.land device DeviceJoypad =? 1)
            || (DeviceIDJoypadR3 <? id))%N eqn:Hg.
  - exists 0. split; [reflexivity | now left].
  - apply State_guard_false in Hg as (_ & _ & Hport & _ & Hid).
    destruct (lookup_lt_is_Some_2 (polled e) (N.to_nat port)) as [row Hrow];
      [lia|].
    assert (Hwf : wf_playerState row) by (eapply Forall_lookup_1; eauto).
    destruct (lookup_lt_is_Some_2 row (N.to_nat id)) as [b Hb].
    { unfold wf_playerState, ActionLast in Hwf. lia. }
    exists (if b then 1 else 0).
    unfold bind_, getLatest, bind_, get, lift_opt, at_uint.
    rewrite Hrow. simpl. rewrite Hb.
    destruct b; (split; [reflexivity|]); [now right | now left].
Qed.

(** X16: the hotkeys are not visible to the core: for every action id above
    DeviceIDJoypadR3, the hotkey ids below ActionLast among them, State
    returns 0 whatever the port, device kind, sub-index and live snapshot. *)
Theorem State_hides_hotkeys {L : Libretro} (port device index id : N)
    (e : Engine) :
  (DeviceIDJoypadR3 < id)%N ->
  State port device index id e = Ret 0 e.
Proof.
  intros Hid. unfold State.
  destruct ((255 <=? id) || (0 <? index) || (N.of_nat MaxPlayers <=? port)
            || negb (N.land device DeviceJoypad =? 1)
            || (DeviceIDJoypadR3 <? id))%N eqn:Hg; [reflexivity|].
  apply State_guard_false in Hg. exfalso. lia.
Qed.

(** ** What polling writes *)

Section PollingWrites.
Context {L : Libretro}.

Lemma setPolled_other_row (p q : nat) (v : N) (r : option playerState) :
  q <> p -> preserves (fun x => polled x !! p = r) (setPolled q v).
Proof.
  intros Hq e Hr. unfold setPolled, bind_, get, lift_opt, modify.
  destruct (polled e !! q) as [row|]; simpl; [|exact Hr].
  destruct (at_uint row v); simpl; [|exact Hr].
  now rewrite list_lookup_insert_ne.
Qed.

(** X6: the keyboard only ever writes the vector of the local player: the
    live vector of every other player is the same after pollKeyboard as
    before, whether it returns or panics. *)
Theorem pollKeyboard_only_local_player (h : Host) (p : nat) (e : Engine) :
  p <> localPlayerPort ->
  polled (state_of (pollKeyboard h e)) !! p = polled e !! p.
Proof.
  intros Hp.
  assert (Hkeep : preserves (fun x => polled x !! p = polled e !! p)
                            (pollKeyboard h)).
  { apply preserves_for_each. intros kv.
    apply preserves_bind; [apply preserves_get | intros e0].
    apply preserves_bind; [apply preserves_lift_opt | intros w].
    apply preserves_if; [|apply preserves_ret].
    apply setPolled_other_row. congruence. }
  now apply Hkeep.
Qed.

Lemma setPolled_keeps_bit (p a q : nat) (v : N) :
  preserves (fun x => bit (polled x) p a = true) (setPolled q v).
Proof.
  intros e Hb. unfold setPolled, bind_, get, lift_opt, modify, at_uint.
  destruct (polled e !! q) as [row|] eqn:Hrow; simpl; [|exact Hb].
  destruct (row !! N.to_nat v) as [old|] eqn:Hold; simpl; [|exact Hb].
  unfold bit in *.
  destruct (decide (q = p)) as [->|Hq].
  - rewrite list_lookup_total_insert_eq by (eapply lookup_lt_Some; eauto).
    rewrite (list_lookup_total_correct _ _ _ Hrow) in Hb.
    destruct (decide (N.to_nat v = a)) as [<-|Ha].
    + apply list_lookup_total_insert_eq. eapply lookup_lt_Some; eauto.
    + now rewrite list_lookup_total_insert_ne.
  - now rewrite list_lookup_total_insert_ne.
Qed.

(** X7: inputs are or-ed into the live snapshot: a bit that is set stays set
    through pollKeyboard and through pollJoypads, in whatever state they
    stop. *)
Theorem polling_never_clears_a_bit (h : Host) (p a : nat) (e : Engine) :
  bit (polled e) p a = true ->
  bit (polled (state_of (pollKeyboard h e))) p a = true
  /\ bit (polled (state_of (pollJoypads h e))) p a = true.
Proof.
  intros Hb. split.
  - apply (preserves_pollKeyboard (fun x => bit (polled x) p a = true));
      [intros q v; apply setPolled_keeps_bit | exact Hb].
  - apply (preserves_pollJoypads (fun x => bit (polled x) p a = true));
      [intros q v; apply setPolled_keeps_bit | exact Hb].
Qed.

Lemma for_each_skip {A} (l : list A) (body : A -> M unit) (e : Engine) :
  (forall x, x ∈ l -> body x e = Ret tt e) -> for_each l body e = Ret tt e.
Proof.
  induction l as [|x l IH]; intros Hbody; [reflexivity|].
  simpl. unfold bind_. rewrite (Hbody x) by left.
  apply IH. intros y Hy. apply Hbody. now right.
Qed.

(** X8: a joypad whose name has no entry in the binding table, or that
    reports no button, contributes nothing: when that is so of every player's
    joypad, pollJoypads returns and the engine is as it was, whatever the
    buttons and axes report and whatever the dpad setting. *)
Theorem pollJoypads_unbound_or_unplugged (h : Host) (e : Engine) :
  (forall p, (p < MaxPlayers)%nat ->
             HasBinding h p = false \/ GetButtons h p = []) ->
  pollJoypads h e = Ret tt e.
Proof.
  intros Hdev. apply for_each_skip. intros p Hp.
  apply elem_of_seq in Hp. unfold pollJoypad. cbv zeta.
  destruct (Hdev p) as [Hnone|Hbs]; [lia | |].
  - unfold HasBinding in Hnone. cbv zeta in Hnone.
    destruct (joyBinds h !! GetName h p); [discriminate|]. simpl.
    now destruct (0 <? length (GetButtons h p))%nat.
  - rewrite Hbs. reflexivity.
Qed.

(** X9: with the axis-to-dpad setting off, one pass over the loop body for a
    button binding leaves the bit of its action set exactly when it was set
    already or the button index is within the reported buttons and that
    button reports Press; an index beyond the reported buttons is skipped
    without a panic. A binding of a kind that is neither button nor axis
    changes nothing. *)
Theorem pollBind_button_rule (h : Host) (p : nat) (bs : list Z)
    (axs : list float32) (k : bind) (v : N) (e : Engine) :
  MapAxisToDPad h = false ->
  wf_inputState (polled e) ->
  (p < MaxPlayers)%nat -> (v < ActionLast)%N ->
  (kind k = btn ->
   exists e',
     pollBind h p bs axs (k, v) e = Ret tt e'
     /\ (bit (polled e') p (N.to_nat v) = true <->
         bit (polled e) p (N.to_nat v) = true
         \/ bs !! N.to_nat (index_ k) = Some Press))
  /\ (kind k <> btn -> kind k <> axis ->
      pollBind h p bs axs (k, v) e = Ret tt e).
Proof.
  intros Hoff Hwf Hp Hv. split.
  - intros Hk. unfold pollBind. rewrite Hk, Hoff. simpl.
    unfold btn_fires, at_uint.
    destruct (bs !! N.to_nat (index_ k)) as [b|] eqn:Hb.
    + destruct (b =? Press) eqn:Hfire.
      * apply Z.eqb_eq in Hfire. subst b.
        destruct (setPolled_returns p v e Hwf Hp Hv) as (e' & He' & Hbit & _).
        exists e'. unfold bind_ at 1. rewrite He'. split; [reflexivity|].
        split; [intros _; now right | intros _; exact Hbit].
      * apply Z.eqb_neq in Hfire.
        exists e. split; [reflexivity|]. split; [now left|].
        intros [Hs|Hc]; [exact Hs | congruence].
    + exists e. split; [reflexivity|]. split; [now left|].
      intros [Hs|Hc]; [exact Hs | discriminate].
  - intros Hnb Hna. unfold pollBind. rewrite Hoff.
    apply N.eqb_neq in Hnb, Hna. rewrite Hnb, Hna. reflexivity.
Qed.

End PollingWrites.

(** ** Ways a poll cycle stops *)

Section PollPanics.
Context {L : Libretro}.

Lemma bind_panics_left {A B} (c : M A) (k : A -> M B) (e : Engine) :
  panics (c e) = true -> bind_ c k e = Panic (state_of (c e)).
Proof.
  intros Hc. unfold bind_. destruct (c e); [discriminate | reflexivity].
Qed.

(** X11: Poll before Init, with any key bound, stops on the nil window: it
    panics, and by then the live snapshot has been reset to all-clear while
    every other variable of the package is as it was. *)
Theorem Poll_before_Init_panics (h : Host) (e : Engine) :
  keyBinds h <> [] -> vid e = None ->
  Poll h e = Panic (with_polled zero_inputState e).
Proof.
  intros Hkeys Hvid. unfold Poll.
  unfold bind_ at 1, modify at 1.
  assert (Hk : pollKeyboard h (with_polled zero_inputState e)
               = Panic (with_polled zero_inputState e)).
  { unfold pollKeyboard. destruct (keyBinds h) as [|kv l]; [congruence|].
    simpl. unfold bind_, get, lift_opt. simpl. rewrite Hvid. reflexivity. }
  rewrite bind_panics_left; rewrite Hk; reflexivity.
Qed.

Lemma for_each_panics_inv {A} (Inv : Engine -> Prop) (l : list A)
    (body : A -> M unit) (x : A) :
  x ∈ l -> (forall y, preserves Inv (body y)) ->
  (forall e, Inv e -> panics (body x e) = true) ->
  forall e, Inv e -> panics (for_each l body e) = true.
Proof.
  intros Hx Hkeep Hbody. induction l as [|y l IH]; [inversion Hx|].
  intros e He. simpl. unfold bind_.
  apply elem_of_cons in Hx as [<-|Hx].
  - specialize (Hbody e He). destruct (body x e); [discriminate|reflexivity].
  - pose proof (Hkeep y e He) as Hy.
    destruct (body y e); [now apply IH | reflexivity].
Qed.

(** X15: the binding tables are trusted to name actions below ActionLast: a
    key bound to an action id of ActionLast or more, once it is held, makes
    Poll panic on the write to the live vector. *)
Theorem Poll_key_bound_out_of_range (h : Host) (e : Engine) (w : Video)
    (k : Z) (v : N) :
  vid e = Some w ->
  (k, v) ∈ keyBinds h -> (ActionLast <= v)%N ->
  GetKey h w k = Press ->
  panics (Poll h e) = true.
Proof.
  intros Hvid Hin Hv Hheld. unfold Poll.
  unfold bind_ at 1, modify at 1.
  assert (Hk : panics (pollKeyboard h (with_polled zero_inputState e)) = true).
  { unfold pollKeyboard.
    apply for_each_panics_inv
      with (Inv := polling (Some w)) (x := (k, v)); [exact Hin| | |].
    - intros kv.
      apply preserves_bind; [apply preserves_get | intros e0].
      apply preserves_bind; [apply preserves_lift_opt | intros w0].
      apply preserves_if; [|apply preserves_ret].
      apply (setPolled_wf (fun x => vid x = Some w)). intros x s Hx. exact Hx.
    - intros e0 [[Hlen Hrows] Hv0].
      unfold bind_ at 1, get. unfold bind_ at 1, lift_opt. rewrite Hv0.
      simpl. rewrite Hheld, Z.eqb_refl.
      unfold setPolled, bind_, get, lift_opt, at_uint.
      destruct (lookup_lt_is_Some_2 (polled e0) localPlayerPort)
        as [row Hrow]; [unfold localPlayerPort, MaxPlayers in *; lia|].
      rewrite Hrow. simpl.
      assert (Hwf : wf_playerState row) by (eapply Forall_lookup_1; eauto).
      rewrite lookup_ge_None_2; [reflexivity|].
      unfold wf_playerState in Hwf. lia.
    - split; [apply zero_inputState_wf | exact Hvid]. }
  now rewrite bind_panics_left.
Qed.

End PollPanics.

(** ** From one poll cycle to the next *)

Section PollSequence.
Context {L : Libretro}.

Lemma Poll_run (h : Host) (e : Engine) :
  Poll h e
  = match pollKeyboard h (with_polled zero_inputState e) with
    | Ret _ e2 =>
        match pollJoypads h e2 with
        | Ret _ e3 =>
            Ret tt (with_OldState (polled e3)
                      (with_edges
                         (edges (fun n o => n && negb o) (polled e3)
                                (OldState e3))
                         (edges (fun n o => negb n && o) (polled e3)
                                (OldState e3))
                         (with_NewState (polled e3) e3)))
        | Panic e3 => Panic e3
        end
    | Panic e2 => Panic e2
    end.
Proof.
  unfold Poll, bind_ at 1, modify at 1. unfold bind_ at 1.
  destruct (pollKeyboard h _) as [[] e2|e2]; [|reflexivity].
  unfold bind_ at 1.
  destruct (pollJoypads h e2) as [[] e3|e3]; reflexivity.
Qed.

(** Polling keeps the shape of the live snapshot and touches nothing else. *)
Lemma polling_keeps_rest (h : Host) (e e2 e3 : Engine) :
  pollKeyboard h (with_polled zero_inputState e) = Ret tt e2 ->
  pollJoypads h e2 = Ret tt e3 ->
  wf_inputState (polled e3)
  /\ with_polled zero_inputState e3 = with_polled zero_inputState e.
Proof.
  intros Hk Hj.
  set (Inv := fun x : Engine =>
                wf_inputState (polled x)
                /\ with_polled zero_inputState x
                   = with_polled zero_inputState e).
  assert (Hset : forall q v, preserves Inv (setPolled q v)).
  { intros q v.
    apply (setPolled_wf (fun x => with_polled zero_inputState x
                                  = with_polled zero_inputState e)).
    intros x s Hx. exact Hx. }
  assert (H2 : Inv e2).
  { pose proof (preserves_pollKeyboard Inv Hset h
                  (with_polled zero_inputState e)) as Hpk.
    rewrite Hk in Hpk. apply Hpk. split; [apply zero_inputState_wf|].
    reflexivity. }
  pose proof (preserves_pollJoypads Inv Hset h e2 H2) as Hpj.
  now rewrite Hj in Hpj.
Qed.

(** X13: after a poll cycle that completes, the live snapshot is NewState,
    and an in-contract query answers from it: 1 when the NewState bit of the
    player and action is set, 0 otherwise. *)
Theorem Poll_then_State (h : Host) (e e' : Engine) (port device id : N) :
  Poll h e = Ret tt e' ->
  (port < N.of_nat MaxPlayers)%N ->
  N.land device DeviceJoypad = 1%N ->
  (id <= DeviceIDJoypadR3)%N -> (id < 255)%N ->
  polled e' = NewState e'
  /\ State port device 0 id e'
     = Ret (if bit (NewState e') (N.to_nat port) (N.to_nat id)
            then 1 else 0) e'.
Proof.
  intros HPoll Hport Hdev Hid Hid'. rewrite Poll_run in HPoll.
  destruct (pollKeyboard h _) as [[] e2|e2] eqn:Hk; [|discriminate].
  destruct (pollJoypads h e2) as [[] e3|e3] eqn:Hj; [|discriminate].
  injection HPoll as <-.
  destruct (polling_keeps_rest h e e2 e3 Hk Hj) as [[Hlen Hrows] _].
  split; [reflexivity|]. simpl NewState.
  assert (Hg : ((255 <=? id) || (0 <? 0) || (N.of_nat MaxPlayers <=? port)
                || negb (N.land device DeviceJoypad =? 1)
                || (DeviceIDJoypadR3 <? id))%N = false).
  { rewrite !orb_false_iff, negb_false_iff.
    rewrite !N.leb_gt, !N.ltb_ge, N.eqb_eq. repeat split; lia. }
  destruct (lookup_lt_is_Some_2 (polled e3) (N.to_nat port)) as [row Hrow];
    [lia|].
  assert (Hwf : wf_playerState row) by (eapply Forall_lookup_1; eauto).
  destruct (lookup_lt_is_Some_2 row (N.to_nat id)) as [b Hb].
  { unfold wf_playerState, ActionLast in Hwf. lia. }
  unfold State. rewrite Hg.
  unfold bind_, getLatest, bind_, get, lift_opt, at_uint. simpl.
  rewrite Hrow. simpl. rewrite Hb. unfold bit.
  rewrite (list_lookup_total_correct _ _ _ Hrow).
  rewrite (list_lookup_total_correct _ _ _ Hb). now destruct b.
Qed.

End PollSequence.

(** ** Polling does not read the edge vectors *)

Section Commutes.
Context {L : Libretro}.
Context (f : Engine -> Engine).
Hypothesis f_polled : forall e, polled (f e) = polled e.
Hypothesis f_vid : forall e, vid (f e) = vid e.
Hypothesis f_with_polled :
  forall s e, with_polled s (f e) = f (with_polled s e).

Lemma commutes_ret {A} (a : A) : commutes f (ret a).
Proof. intros e. reflexivity. Qed.

Lemma commutes_lift_opt {A} (o : option A) : commutes f (lift_opt o).
Proof. intros e. now destruct o. Qed.

Lemma commutes_bind {A B} (c : M A) (k : A -> M B) :
  commutes f c -> (forall a, commutes f (k a)) -> commutes f (bind_ c k).
Proof.
  intros Hc Hk e. unfold bind_. rewrite Hc.
  destruct (c e) as [a e'|e']; simpl; [apply Hk | reflexivity].
Qed.

Lemma commutes_if {A} (b : bool) (c1 c2 : M A) :
  commutes f c1 -> commutes f c2 -> commutes f (if b then c1 else c2).
Proof. now destruct b. Qed.

Lemma commutes_for_each {A} (l : list A) (body : A -> M unit) :
  (forall x, commutes f (body x)) -> commutes f (for_each l body).
Proof.
  intros Hbody. induction l as [|x l IH]; simpl.
  - apply commutes_ret.
  - apply commutes_bind; [apply Hbody | intros _; exact IH].
Qed.

Lemma commutes_setPolled (p : nat) (v : N) : commutes f (setPolled p v).
Proof using f_polled f_with_polled.
  intros e. unfold setPolled, bind_, get, lift_opt, modify.
  rewrite f_polled.
  destruct (polled e !! p) as [row|]; simpl; [|reflexivity].
  destruct (at_uint row v); simpl; [|reflexivity].
  now rewrite f_with_polled.
Qed.

Lemma commutes_pollKeyboard (h : Host) : commutes f (pollKeyboard h).
Proof using f_polled f_vid f_with_polled.
  apply commutes_for_each. intros kv e.
  unfold bind_, get, lift_opt. rewrite f_vid.
  destruct (vid e) as [w|]; simpl; [|reflexivity].
  destruct (GetKey h w (fst kv) =? Press);
    [apply commutes_setPolled | reflexivity].
Qed.

Lemma commutes_pollJoypads (h : Host) : commutes f (pollJoypads h).
Proof using f_polled f_with_polled.
  apply commutes_for_each. intros p. unfold pollJoypad. cbv zeta.
  apply commutes_if; [|apply commutes_ret].
  apply commutes_for_each. intros [k v]. unfold pollBind.
  repeat first
    [ apply commutes_setPolled
    | apply commutes_ret
    | apply commutes_lift_opt
    | apply commutes_if
    | apply commutes_bind; [|intros ?] ].
Qed.

End Commutes.

Section SteadyInput.
Context {L : Libretro}.

(** X12: edges last one cycle. When a poll cycle has completed and the host
    reports the same inputs again, the next cycle completes too, NewState is
    what it was, and no Pressed and no Released bit is set. *)
Theorem Poll_twice_no_edges (h : Host) (e e1 : Engine) :
  Poll h e = Ret tt e1 ->
  exists e2,
    Poll h e1 = Ret tt e2
    /\ NewState e2 = NewState e1
    /\ forall p a, (p < MaxPlayers)%nat -> (a < N.to_nat ActionLast)%nat ->
         bit (Pressed e2) p a = false /\ bit (Released e2) p a = false.
Proof.
  intros HPoll. rewrite Poll_run in HPoll.
  destruct (pollKeyboard h _) as [[] ek|ek] eqn:Hk; [|discriminate].
  destruct (pollJoypads h ek) as [[] e3|e3] eqn:Hj; [|discriminate].
  injection HPoll as <-.
  destruct (polling_keeps_rest h e ek e3 Hk Hj) as [Hwf Hrest].
  set (N3 := polled e3).
  set (P3 := edges (fun n o => n && negb o) N3 (OldState e3)).
  set (R3 := edges (fun n o => negb n && o) N3 (OldState e3)).
  set (F := fun x => with_OldState N3 (with_edges P3 R3 (with_NewState N3 x))).
  assert (HFk : commutes F (pollKeyboard h)).
  { apply commutes_pollKeyboard; intros; reflexivity. }
  assert (HFj : commutes F (pollJoypads h)).
  { apply commutes_pollJoypads; intros; reflexivity. }
  assert (Hstart : with_polled zero_inputState (F e3)
                   = F (with_polled zero_inputState e)).
  { change (with_polled zero_inputState (F e3))
      with (F (with_polled zero_inputState e3)). now rewrite Hrest. }
  eexists. rewrite Poll_run. fold N3 P3 R3. fold (F e3).
  rewrite Hstart, HFk, Hk. cbn [map_state]. rewrite HFj, Hj. cbn [map_state].
  split; [reflexivity|]. split; [reflexivity|].
  intros p a Hp Ha. simpl Pressed. simpl Released. simpl polled.
  simpl OldState. fold N3.
  rewrite !bit_edges by assumption.
  now destruct (bit N3 p a).
Qed.

End SteadyInput.

(** ** The axis-to-dpad synthesis *)

Section DPad.
Context {L : Libretro}.

Lemma cond_setPolled_returns (b : bool) (p : nat) (v : N) (e : Engine) :
  wf_inputState (polled e) -> (p < MaxPlayers)%nat -> (v < ActionLast)%N ->
  exists e',
    (if b then setPolled p v else ret tt) e = Ret tt e'
    /\ wf_inputState (polled e')
    /\ (b = true -> bit (polled e') p (N.to_nat v) = true)
    /\ (forall q a, bit (polled e) q a = true -> bit (polled e') q a = true).
Proof.
  intros Hwf Hp Hv. destruct b.
  - destruct (setPolled_returns p v e Hwf Hp Hv) as (e' & He' & Hbit & Hwf').
    exists e'. split; [exact He'|]. split; [exact Hwf'|].
    split; [intros _; exact Hbit|]. intros q a Hqa.
    pose proof (setPolled_keeps_bit q a p v e Hqa) as Hkeep.
    now rewrite He' in Hkeep.
  - exists e. split; [reflexivity|]. split; [exact Hwf|].
    split; [discriminate|]. intros q a Hqa. exact Hqa.
Qed.

(** X14: with the axis-to-dpad setting on and a device that reports at least
    two axes, one pass over the loop body returns, and on top of the binding
    it sets Left when axis 0 is below -0.5, otherwise Right when axis 0 is
    above 0.5, and Down when axis 1 is above 0.5, otherwise Up when axis 1 is
    below -0.5. *)
Theorem pollBind_dpad_synthesis (h : Host) (p : nat) (bs : list Z)
    (axs : list float32) (a0 a1 : float32) (k : bind) (v : N) (e : Engine) :
  MapAxisToDPad h = true ->
  axs !! 0%nat = Some a0 -> axs !! 1%nat = Some a1 ->
  wf_inputState (polled e) ->
  (p < MaxPlayers)%nat -> (v < ActionLast)%N ->
  (DeviceIDJoypadLeft < ActionLast)%N ->
  (DeviceIDJoypadRight < ActionLast)%N ->
  (DeviceIDJoypadUp < ActionLast)%N ->
  (DeviceIDJoypadDown < ActionLast)%N ->
  exists e',
    pollBind h p bs axs (k, v) e = Ret tt e'
    /\ (flt a0 f32_neg_half = true ->
        bit (polled e') p (N.to_nat DeviceIDJoypadLeft) = true)
    /\ (flt a0 f32_neg_half = false -> fgt a0 f32_half = true ->
        bit (polled e') p (N.to_nat DeviceIDJoypadRight) = true)
    /\ (fgt a1 f32_half = true ->
        bit (polled e') p (N.to_nat DeviceIDJoypadDown) = true)
    /\ (fgt a1 f32_half = false -> flt a1 f32_neg_half = true ->
        bit (polled e') p (N.to_nat DeviceIDJoypadUp) = true).
Proof.
  intros Hon H0 H1 Hwf Hp Hv HL HR HU HD.
  unfold pollBind. rewrite Hon, H0, H1. simpl negb. cbv iota.
  (* the binding itself *)
  assert (Hfirst : exists e1,
            (if (kind k =? btn)%N
             then if btn_fires k bs then setPolled p v else ret tt
             else if (kind k =? axis)%N
                  then if axis_fires k axs then setPolled p v else ret tt
                  else ret tt) e = Ret tt e1 /\ wf_inputState (polled e1)).
  { destruct (kind k =? btn)%N.
    - destruct (cond_setPolled_returns (btn_fires k bs) p v e Hwf Hp Hv)
        as (e1 & He1 & Hwf1 & _). now exists e1.
    - destruct (kind k =? axis)%N.
      + destruct (cond_setPolled_returns (axis_fires k axs) p v e Hwf Hp Hv)
          as (e1 & He1 & Hwf1 & _). now exists e1.
      + exists e. now split. }
  destruct Hfirst as (e1 & He1 & Hwf1).
  unfold bind_ at 1. rewrite He1.
  unfold bind_ at 1. simpl lift_opt. unfold ret at 1.
  (* axis 0 *)
  assert (Hx : exists e2,
            (if flt a0 f32_neg_half then setPolled p DeviceIDJoypadLeft
             else if fgt a0 f32_half then setPolled p DeviceIDJoypadRight
                  else ret tt) e1 = Ret tt e2
            /\ wf_inputState (polled e2)
            /\ (flt a0 f32_neg_half = true ->
                bit (polled e2) p (N.to_nat DeviceIDJoypadLeft) = true)
            /\ (flt a0 f32_neg_half = false -> fgt a0 f32_half = true ->
                bit (polled e2) p (N.to_nat DeviceIDJoypadRight) = true)).
  { destruct (flt a0 f32_neg_half).
    - destruct (cond_setPolled_returns true p _ e1 Hwf1 Hp HL)
        as (e2 & He2 & Hwf2 & Hb & _).
      exists e2. repeat split; [exact He2 | apply Hwf2 | apply Hwf2 | |];
        [intros _; now apply Hb | discriminate].
    - destruct (cond_setPolled_returns (fgt a0 f32_half) p _ e1 Hwf1 Hp HR)
        as (e2 & He2 & Hwf2 & Hb & _).
      exists e2. repeat split; [exact He2 | apply Hwf2 | apply Hwf2 | |];
        [discriminate | intros _; exact Hb]. }
  destruct Hx as (e2 & He2 & Hwf2 & HbL & HbR).
  unfold bind_ at 1. rewrite He2.
  unfold bind_ at 1. simpl lift_opt. unfold ret at 1.
  (* axis 1 *)
  assert (Hy : exists e3,
            (if fgt a1 f32_half then setPolled p DeviceIDJoypadDown
             else if flt a1 f32_neg_half then setPolled p DeviceIDJoypadUp
                  else ret tt) e2 = Ret tt e3
            /\ (fgt a1 f32_half = true ->
                bit (polled e3) p (N.to_nat DeviceIDJoypadDown) = true)
            /\ (fgt a1 f32_half = false -> flt a1 f32_neg_half = true ->
                bit (polled e3) p (N.to_nat DeviceIDJoypadUp) = true)
            /\ (forall q a, bit (polled e2) q a = true ->
                            bit (polled e3) q a = true)).
  { destruct (fgt a1 f32_half).
    - destruct (cond_setPolled_returns true p _ e2 Hwf2 Hp HD)
        as (e3 & He3 & _ & Hb & Hkeep).
      exists e3. split; [exact He3|]. split; [intros _; now apply Hb|].
      split; [discriminate | exact Hkeep].
    - destruct (cond_setPolled_returns (flt a1 f32_neg_half) p _ e2 Hwf2 Hp HU)
        as (e3 & He3 & _ & Hb & Hkeep).
      exists e3. split; [exact He3|]. split; [discriminate|].
      split; [intros _; exact Hb | exact Hkeep]. }
  destruct Hy as (e3 & He3 & HbD & HbU & Hkeep).
  exists e3. split; [exact He3|].
  split; [intros Hc; apply Hkeep; now apply HbL|].
  split; [intros Hc Hc'; apply Hkeep; now apply HbR|].
  split; assumption.
Qed.

End DPad.

(** ** The further properties at concrete inputs *)

Lemma getState_returns_iff_witness :
  let z := zero_inputState (L := libretro_h) in
  let e := engine_with z (replicate 5 z) [] in
  state_of (getState 0 3 e) = e
  /\ (panics (getState 0 3 e) = false <->
      (N.to_nat 0 < length (replicate 5 z))%nat
      /\ 0 <= frame 3 < Z.of_nat MaxPlayers).
Proof.
  intros z e.
  apply (getState_returns_iff (L := libretro_h) 0 3 e (replicate 5 z));
    [reflexivity | apply Forall_replicate; apply zero_inputState_wf].
Defined.

Lemma initializeBuffer_overruns_ring_witness :
  let z := zero_inputState (L := libretro_h) in
  let arr := replicate 5 (one_bit 0 0) in
  let e := engine_with z arr [] in
  panics (initializeBuffer (L := libretro_h) 1 e) = true
  /\ ((length arr <= N.to_nat 1)%nat ->
      initializeBuffer (L := libretro_h) 1 e = Panic e)
  /\ ((N.to_nat 1 < length arr)%nat ->
      live (state_of (initializeBuffer (L := libretro_h) 1 e))
      = Some (<[N.to_nat 1 := z]> arr)).
Proof.
  intros z arr e.
  apply (initializeBuffer_overruns_ring (L := libretro_h) 1 e arr);
    [reflexivity | apply Forall_replicate; apply one_bit_wf].
Defined.

Lemma restore_after_writes_witness :
  let z := zero_inputState (L := libretro_h) in
  let h := key_host 3 in
  let e := engine_with z (replicate 5 (one_bit 0 0)) [] in
  let st := z !!! 0%nat in
  let e1 := state_of (Serialize e) in
  let e2 := state_of (initializeBuffer (L := libretro_h) 1
                        (state_of (setState h 0 st e1))) in
  exists e3,
    Unserialize (AnySlice 1) e2 = Ret tt e3
    /\ forall (q : N) (tick : Z),
         result (getState q tick e3) = result (getState q tick e).
Proof.
  intros z h e st e1.
  apply (restore_after_writes (L := libretro_h) h 0 1 st (AnySlice 1) e e1);
    [unfold valid; simpl; lia | reflexivity].
Defined.

Lemma State_total_witness :
  let z := zero_inputState (L := libretro_h) in
  let e := engine_with (one_bit 0 16) (replicate 5 z) [] in
  exists r, State (L := libretro_h) 0 1 0 16 e = Ret r e /\ (r = 0 \/ r = 1).
Proof.
  intros z e.
  apply (State_total (L := libretro_h) 0 1 0 16 e). apply one_bit_wf.
Defined.

Lemma pollKeyboard_only_local_player_witness :
  let z := zero_inputState (L := libretro_h) in
  let e := engine_with (one_bit 1 3) [] [] in
  polled (state_of (pollKeyboard (key_host 0) e)) !! 1%nat
  = polled e !! 1%nat.
Proof.
  intros z e.
  apply (pollKeyboard_only_local_player (key_host 0) 1 e).
  intros Hc. discriminate Hc.
Defined.

Lemma polling_never_clears_a_bit_witness :
  let e := engine_with (one_bit 0 6) [] [] in
  let h := pad_host f32_0_7 in
  bit (polled (state_of (pollKeyboard h e))) 0 6 = true
  /\ bit (polled (state_of (pollJoypads (L := libretro_h) h e))) 0 6 = true.
Proof.
  intros e h.
  apply (polling_never_clears_a_bit (L := libretro_h) h 0 6 e). reflexivity.
Defined.

Lemma pollJoypads_unbound_or_unplugged_witness :
  let z := zero_inputState (L := libretro_h) in
  let e := engine_with z [] [] in
  pollJoypads (L := libretro_h) (key_host 0) e = Ret tt e.
Proof.
  intros z e.
  apply (pollJoypads_unbound_or_unplugged (L := libretro_h) (key_host 0) e).
  intros p Hp. right. reflexivity.
Defined.

Lemma pollBind_button_rule_witness :
  let z := zero_inputState (L := libretro_h) in
  let e := engine_with z [] [] in
  let h := pad_host f32_0_7 in
  let k := Bind btn 0 f32_half f32_half in
  (kind k = btn ->
   exists e',
     pollBind (L := libretro_h) h 0 [1] [] (k, 8%N) e = Ret tt e'
     /\ (bit (polled e') 0 (N.to_nat 8) = true <->
         bit (polled e) 0 (N.to_nat 8) = true
         \/ [1] !! N.to_nat (index_ k) = Some Press))
  /\ (kind k <> btn -> kind k <> axis ->
      pollBind (L := libretro_h) h 0 [1] [] (k, 8%N) e = Ret tt e).
Proof.
  intros z e h k.
  apply (pollBind_button_rule (L := libretro_h) h 0 [1] [] k 8 e);
    [ reflexivity | apply zero_inputState_wf | unfold MaxPlayers; lia
    | reflexivity ].
Defined.

Lemma Poll_returns_witness :
  let z := zero_inputState (L := libretro_h) in
  let e := engine_with z [] [] in
  exists e', Poll (L := libretro_h) (key_host 0) e = Ret tt e'.
Proof.
  intros z e.
  apply (Poll_returns (L := libretro_h) (key_host 0) e).
  - reflexivity.
  - intros _. exists 7. reflexivity.
  - intros kv Hin. apply list_elem_of_singleton in Hin. subst kv. reflexivity.
  - intros p jb kv Hjb. discriminate Hjb.
Defined.

Lemma Poll_before_Init_panics_witness :
  let e := init_engine (L := libretro_h) in
  Poll (L := libretro_h) (key_host 0) e
  = Panic (with_polled (zero_inputState (L := libretro_h)) e).
Proof.
  intros e.
  apply (Poll_before_Init_panics (L := libretro_h) (key_host 0) e);
    [intros Hc; discriminate Hc | reflexivity].
Defined.

Lemma Poll_key_bound_out_of_range_witness :
  let z := zero_inputState (L := libretro_h) in
  let e := engine_with z [] [] in
  panics (Poll (L := libretro_h) stray_key_host e) = true.
Proof.
  intros z e.
  apply (Poll_key_bound_out_of_range (L := libretro_h) stray_key_host e 7
           264 20);
    [ reflexivity | left | vm_compute; intros Hc; discriminate Hc
    | reflexivity ].
Defined.

Lemma Poll_then_State_witness :
  let z := zero_inputState (L := libretro_h) in
  let e := engine_with z [] [] in
  let e' := state_of (Poll (L := libretro_h) (key_host 0) e) in
  polled e' = NewState e'
  /\ State (L := libretro_h) 0 1 0 5 e'
     = Ret (if bit (NewState e') (N.to_nat 0) (N.to_nat 5) then 1 else 0) e'.
Proof.
  intros z e e'.
  apply (Poll_then_State (L := libretro_h) (key_host 0) e e' 0 1 5);
    [ reflexivity | reflexivity | reflexivity
    | vm_compute; intros Hc; discriminate Hc | reflexivity ].
Defined.

Lemma Poll_twice_no_edges_witness :
  let z := zero_inputState (L := libretro_h) in
  let e := engine_with z [] [] in
  let e1 := state_of (Poll (L := libretro_h) (key_host 0) e) in
  exists e2,
    Poll (L := libretro_h) (key_host 0) e1 = Ret tt e2
    /\ NewState e2 = NewState e1
    /\ forall p a, (p < MaxPlayers)%nat ->
         (a < N.to_nat (ActionLast (L := libretro_h)))%nat ->
         bit (Pressed e2) p a = false /\ bit (Released e2) p a = false.
Proof.
  intros z e e1.
  apply (Poll_twice_no_edges (L := libretro_h) (key_host 0) e e1).
  reflexivity.
Defined.

Lemma pollBind_dpad_synthesis_witness :
  let z := zero_inputState (L := libretro_h) in
  let e := engine_with z [] [] in
  let h := dpad_host f32_neg_0_7 in
  let k := Bind btn 0 f32_half f32_half in
  let a0 := f32_neg_0_7 in
  let a1 := f32_0_7 in
  exists e',
    pollBind (L := libretro_h) h 0 [0] [a0; a1] (k, 8%N) e = Ret tt e'
    /\ (flt a0 f32_neg_half = true -> bit (polled e') 0 (N.to_nat 6) = true)
    /\ (flt a0 f32_neg_half = false -> fgt a0 f32_half = true ->
        bit (polled e') 0 (N.to_nat 7) = true)
    /\ (fgt a1 f32_half = true -> bit (polled e') 0 (N.to_nat 5) = true)
    /\ (fgt a1 f32_half = false -> flt a1 f32_neg_half = true ->
        bit (polled e') 0 (N.to_nat 4) = true).
Proof.
  intros z e h k a0 a1.
  apply (pollBind_dpad_synthesis (L := libretro_h) h 0 [0] [a0; a1] a0 a1 k 8
           e);
    [ reflexivity | reflexivity | reflexivity | apply zero_inputState_wf
    | unfold MaxPlayers; lia | reflexivity | reflexivity | reflexivity
    | reflexivity | reflexivity ].
Defined.

Lemma State_hides_hotkeys_witness :
  let z := zero_inputState (L := libretro_h) in
  let e := engine_with (one_bit 0 17) (replicate 5 z) [] in
  State (L := libretro_h) 0 1 0 17 e = Ret 0 e.
Proof.
  intros z e.
  apply (State_hides_hotkeys (L := libretro_h) 0 1 0 17 e). reflexivity.
Defined.
